(** * Stock returns calculator: a shallow embedding of
      [streamlit_price_change_from_close.py]

    The development follows the source file top to bottom:
    - [Calendar]: the part of CPython's [datetime] that the calculator
      uses ([strptime] validation, ordinals, [weekday], [timedelta]);
    - [Text]: [str.strip], [str.upper], [str.split('\n')] on ASCII text,
      and the symbol list built in [main];
    - the calculator itself, [calculate_stock_returns], written over an
      interface for [numpy.float64] arithmetic, for pandas' [sort_values],
      for the tz database entry [America/New_York] and for the price history
      provider ([yfinance]);
    - the properties of the calculator. *)

From Stdlib Require Import ZArith List String Ascii Bool Lia.
From Stdlib Require Import Permutation Sorted QArith Qround.
Import ListNotations.
Open Scope string_scope.
Open Scope list_scope.
Open Scope Z_scope.

(** ** Exceptions and fallible results *)

(** The exceptions the calculator can meet.  [ProviderError] stands for
    whatever [yfinance] raises (network failure, bad symbol, ...). *)
Inductive exn : Type :=
| ValueError
| OverflowError
| TypeError
| IndexError
| ProviderError.

(** A computation that either raises or returns. *)
Definition result (A : Type) : Type := (exn + A)%type.

Definition raise {A : Type} (e : exn) : result A := inl e.
Definition ret {A : Type} (a : A) : result A := inr a.

Definition bind {A B : Type} (m : result A) (k : A -> result B) : result B :=
  match m with
  | inl e => inl e
  | inr a => k a
  end.

Declare Scope result_scope.
Delimit Scope result_scope with result.
Notation "x <- m ;; k" := (bind m (fun x => k))
  (at level 100, m at next level, right associativity) : result_scope.

(** ** Calendar *)

Module Calendar.

(** [datetime.MAXYEAR] and [date.max.toordinal()]. *)
Definition MAXYEAR : Z := 9999.
Definition MAXORDINAL : Z := 3652059.

Definition is_leap (year : Z) : bool :=
  (year mod 4 =? 0) && (negb (year mod 100 =? 0) || (year mod 400 =? 0)).

Definition days_before_year (year : Z) : Z :=
  let y := year - 1 in
  y * 365 + y / 4 - y / 100 + y / 400.

Definition days_in_month (year month : Z) : Z :=
  if month =? 2 then (if is_leap year then 29 else 28)
  else if (month =? 4) || (month =? 6) || (month =? 9) || (month =? 11)
       then 30 else 31.

(** Days of the year before the first day of [month]. *)
Definition days_before_month (year month : Z) : Z :=
  nth (Z.to_nat (month - 1))
      [0; 31; 59; 90; 120; 151; 181; 212; 243; 273; 304; 334] 0
  + (if (2 <? month) && is_leap year then 1 else 0).

(** The proleptic Gregorian ordinal: 0001-01-01 is day 1. *)
Definition ymd2ord (year month day : Z) : Z :=
  days_before_year year + days_before_month year month + day.

(** The fields of a date string in the format [%m-%d-%Y]. *)
Record mdy : Type := MDY { month : Z; day : Z; year : Z }.

(** [datetime.strptime(comparison_date, '%m-%d-%Y')] on the fields of the
    string: the range checks of [datetime], then the date.  A [datetime]
    at midnight is represented by its ordinal, on which [weekday],
    [timedelta] arithmetic and the comparison of [strftime('%Y-%m-%d')]
    strings are all computed. *)
Definition strptime (s : mdy) : result Z :=
  if (1 <=? year s) && (year s <=? MAXYEAR)
     && (1 <=? month s) && (month s <=? 12)
     && (1 <=? day s) && (day s <=? days_in_month (year s) (month s))
  then ret (ymd2ord (year s) (month s) (day s))
  else raise ValueError.

(** [date.weekday()]: Monday is 0, Sunday is 6. *)
Definition weekday (ord : Z) : Z := (ord + 6) mod 7.

(** [d + timedelta(days=n)] and [d - timedelta(days=n)]: an
    [OverflowError] outside [date.min .. date.max]. *)
Definition timedelta_add (d n : Z) : result Z :=
  if (1 <=? d + n) && (d + n <=? MAXORDINAL) then ret (d + n)
  else raise OverflowError.

Definition timedelta_sub (d n : Z) : result Z := timedelta_add d (- n).

(** Ordinal of 1970-01-01, the epoch of the bar timestamps. *)
Definition EPOCH : Z := 719163.

End Calendar.

(** ** Text *)

Module Text.

(** [str.isspace] on an ASCII character: TAB, LF, VT, FF, CR, the four
    separators FS, GS, RS, US, and the space. *)
Definition isspace (c : ascii) : bool :=
  let n := nat_of_ascii c in
  ((9 <=? n) && (n <=? 13) || (28 <=? n) && (n <=? 32))%nat.

Fixpoint lstrip (s : string) : string :=
  match s with
  | EmptyString => EmptyString
  | String c s' => if isspace c then lstrip s' else s
  end.

Fixpoint rstrip (s : string) : string :=
  match s with
  | EmptyString => EmptyString
  | String c s' =>
      match rstrip s' with
      | EmptyString => if isspace c then EmptyString else String c EmptyString
      | r => String c r
      end
  end.

(** [s.strip()] *)
Definition strip (s : string) : string := rstrip (lstrip s).

Definition upper_char (c : ascii) : ascii :=
  let n := nat_of_ascii c in
  if ((97 <=? n) && (n <=? 122))%nat then ascii_of_nat (n - 32) else c.

(** [s.upper()] on ASCII text. *)
Fixpoint upper (s : string) : string :=
  match s with
  | EmptyString => EmptyString
  | String c s' => String (upper_char c) (upper s')
  end.

Definition LF : ascii := ascii_of_nat 10.

(** [s.split('\n')]: the pieces between line feeds; never empty. *)
Fixpoint split_lines (s : string) : list string :=
  match s with
  | EmptyString => [EmptyString]
  | String c s' =>
      if Ascii.eqb c LF then EmptyString :: split_lines s'
      else match split_lines s' with
           | [] => [String c EmptyString]
           | piece :: rest => String c piece :: rest
           end
  end.

(** Truth value of a [str]: non-empty. *)
Definition truthy (s : string) : bool :=
  match s with EmptyString => false | _ => true end.

(** The comprehension
    [[s.strip().upper() for s in lines if s.strip()]]. *)
Fixpoint comprehension (lines : list string) : list string :=
  match lines with
  | [] => []
  | s :: rest =>
      if truthy (strip s) then upper (strip s) :: comprehension rest
      else comprehension rest
  end.

(** The symbol list of [main]: [stocks_list = []], replaced by the
    comprehension when the text area is not empty. *)
Definition stocks_list (stock_input : string) : list string :=
  if truthy stock_input then comprehension (split_lines stock_input)
  else [].

(** A string that does not begin with white space. *)
Definition starts_clean (s : string) : Prop :=
  match s with
  | EmptyString => True
  | String c _ => isspace c = false
  end.

End Text.

(** ** The collaborators of the calculator *)

(** [numpy.float64] arithmetic, as far as the calculator uses it: the
    closing prices are [float64] values, and the calculator subtracts,
    divides, multiplies by the integer 100, rounds to two decimals with
    [round(x, 2)], and has its results compared by [sort_values].  None of
    these raises on [float64] (a division by zero is a warning and gives
    [inf] or [nan]), so they are total functions.  [isnan] tells the
    values that are [nan], which [sort_values] sets apart.  The development
    is written over this interface, and its theorems hold for whatever
    arithmetic is put behind it. *)
Class Float64 (num : Type) : Type := {
  fsub : num -> num -> num;
  fdiv : num -> num -> num;
  fmul : num -> num -> num;
  of_int : Z -> num;
  round2 : num -> num;
  fge : num -> num -> bool;
  isnan : num -> bool
}.

(** A time zone of the tz database, as the function that gives the UTC
    offset, in seconds, in force at an instant. *)
Definition tzinfo : Type := Z -> Z.

(** What the calculator shows and asks, in the order it happens: the
    calls to [streamlit] and to the price history provider. *)
Inductive event : Type :=
| Warning (msg : string)
| NewProgress
| NewStatus
| Progress (done total : nat)
| StatusText (symbol : string) (done total : nat)
| History (symbol : string) (start end_ : Z)
| EmptyProgress
| EmptyStatus.

Definition weekend_msg : string :=
  "Selected date is a weekend. Please select a weekday.".

Definition no_results_msg : string :=
  "No results retuned. This could be due to the date selected or the previous day being a holiday. Please try a different date.".

(** *** Formatting of timestamps *)

Definition digit (n : Z) : ascii := ascii_of_nat (48 + Z.to_nat n).

Definition two_digits (n : Z) : string :=
  String (digit (n / 10)) (String (digit (n mod 10)) EmptyString).

(** [strftime('%H:%M')] of a wall-clock time given in seconds. *)
Definition strftime_HM (wall : Z) : string :=
  let minutes := (wall mod 86400) / 60 in
  String.append (two_digits (minutes / 60))
                (String ":" (two_digits (minutes mod 60))).

(** [strftime('%Y-%m-%d')] of a wall-clock time: the text is compared
    with the text of a date only, so it is represented by the ordinal of
    the day it prints. *)
Definition strftime_Ymd (wall : Z) : Z := wall / 86400 + Calendar.EPOCH.

Arguments strftime_HM : simpl never.
Arguments strftime_Ymd : simpl never.

(** ** The calculator *)

Section Calculator.

Context {num : Type} {F : Float64 num}.

(** One row of the result: the four columns of the [results] dict.  The
    four lists of the dict grow together, all four [append]s standing
    after the last statement that can raise, so the dict is kept as the
    list of its rows. *)
Record ReturnRecord : Type := {
  Symbol : string;
  Previous_Close : num;
  Target_Price : num;
  Return_pct : num
}.

Definition DataFrame : Type := list ReturnRecord.

(** [pd.DataFrame()] *)
Definition empty_frame : DataFrame := [].

(** Rows in descending order of the [Return (%)] column: each row's
    value [>=] the next row's. *)
Definition descending (df : DataFrame) : Prop :=
  Sorted (fun a b => fge (Return_pct a) (Return_pct b) = true) df.

(** A row whose [Return (%)] is [nan]. *)
Definition nan_row (row : ReturnRecord) : bool := isnan (Return_pct row).

(** The order [sort_values] leaves with [ascending=False] and the default
    [na_position='last']: first the rows whose key is a number, in
    descending order, then the rows whose key is [nan]. *)
Definition numbers_then_nans (df : DataFrame) : Prop :=
  exists numbers nans,
    df = numbers ++ nans
    /\ Forall (fun row => nan_row row = false) numbers
    /\ descending numbers
    /\ Forall (fun row => nan_row row = true) nans.

(** [df.sort_values('Return (%)', ascending=False)] followed by
    [reset_index(drop=True)].  The call leaves [kind] at its default,
    ['quicksort'], for which pandas promises the rows back in sorted order,
    [nan] keys last, and nothing about rows with equal keys.  An
    implementation exists as soon as [fge] compares any two keys that are
    numbers one way or the other, as [>=] on [float64] does (see
    [stable_sort_values]). *)
Class SortValues : Type := {
  sort_values : DataFrame -> DataFrame;
  sort_values_perm : forall df, Permutation (sort_values df) df;
  sort_values_order : forall df, numbers_then_nans (sort_values df)
}.

(** One hourly bar: the instant it starts at, in seconds since the epoch,
    and its closing price (the only column read). *)
Record Bar : Type := { ts : Z; Close : num }.

(** The frame [history] returns: the bars in the provider's order, under
    an index that is tz-aware ([Some tz]) or naive ([None]). *)
Record Ticker : Type := { index_tz : option tzinfo; bars : list Bar }.

(** The wall-clock time the index shows for an instant. *)
Definition wall (tz : option tzinfo) (t : Z) : Z :=
  match tz with
  | Some offset => t + offset t
  | None => t
  end.

(** [ticker[ticker.index.strftime('%Y-%m-%d') == d.strftime('%Y-%m-%d')]] *)
Definition on_date (ticker : Ticker) (d : Z) : Ticker :=
  {| index_tz := index_tz ticker;
     bars := filter (fun b => strftime_Ymd (wall (index_tz ticker) (ts b)) =? d)
                    (bars ticker) |}.

(** [index.tz_convert(tz)]: the same instants shown in [tz]; a
    [TypeError] on a naive index. *)
Definition tz_convert (data : Ticker) (tz : tzinfo) : result Ticker :=
  match index_tz data with
  | None => raise TypeError
  | Some _ => ret {| index_tz := Some tz; bars := bars data |}
  end.

(** [data[data.index.strftime('%H:%M') == comparison_time]] *)
Definition at_time (data : Ticker) (comparison_time : string) : list Bar :=
  filter (fun b => String.eqb (strftime_HM (wall (index_tz data) (ts b)))
                              comparison_time)
         (bars data).

(** [rows['Close'].values[0]] *)
Definition values_0 (rows : list Bar) : result num :=
  match rows with
  | [] => raise IndexError
  | b :: _ => ret (Close b)
  end.

(** [rows.iloc[-1]] *)
Fixpoint iloc_last (rows : list Bar) : result Bar :=
  match rows with
  | [] => raise IndexError
  | b :: rest =>
      match rest with
      | [] => ret b
      | _ :: _ => iloc_last rest
      end
  end.

Variable America_New_York : tzinfo.

(** [yf.Ticker(symbol).history(start=..., end=..., interval='1h')] *)
Variable history : string -> Z -> Z -> result Ticker.

Open Scope result_scope.

(** Lines 63 to 69: the two closing prices read from the fetched frame,
    [(target_time_price, prev_day_close)]. *)
Definition closes (ticker : Ticker) (target_date prev_day : Z)
    (comparison_time : string) : result (num * num) :=
  let target_date_data := on_date ticker target_date in
  target_date_data <- tz_convert target_date_data America_New_York ;;
  target_time_price <- values_0 (at_time target_date_data comparison_time) ;;
  let prev_day_data := on_date ticker prev_day in
  last_bar <- iloc_last (bars prev_day_data) ;;
  let prev_day_close := Close last_bar in
  ret (target_time_price, prev_day_close).

(** Line 71: the return before rounding. *)
Definition returns_pct (target_time_price prev_day_close : num) : num :=
  fmul (fdiv (fsub target_time_price prev_day_close) prev_day_close)
       (of_int 100).

(** Lines 73 to 76: the row appended to [results]. *)
Definition record (symbol : string) (target_time_price prev_day_close : num)
    : ReturnRecord :=
  {| Symbol := symbol;
     Previous_Close := round2 prev_day_close;
     Target_Price := round2 target_time_price;
     Return_pct := round2 (returns_pct target_time_price prev_day_close) |}.

(** Lines 63 to 76: from the fetched frame to the row of the symbol. *)
Definition returns_of (ticker : Ticker) (symbol : string)
    (target_date prev_day : Z) (comparison_time : string)
    : result ReturnRecord :=
  prices <- closes ticker target_date prev_day comparison_time ;;
  ret (record symbol (fst prices) (snd prices)).

(** Line 59: the request to the provider, with the event it leaves.  The
    end of the range is computed first and can overflow. *)
Definition fetch (symbol : string) (target_date prev_day : Z)
    : result Ticker * list event :=
  match Calendar.timedelta_add target_date 1 with
  | inl e => (inl e, [])
  | inr end_ => (history symbol prev_day end_, [History symbol prev_day end_])
  end.

(** The body of the [try]: lines 53 to 76. *)
Definition try_symbol (total idx : nat) (symbol : string)
    (target_date prev_day : Z) (comparison_time : string)
    : result ReturnRecord * list event :=
  let shown := [Progress (S idx) total; StatusText symbol (S idx) total] in
  let (ticker, asked) := fetch symbol target_date prev_day in
  (ticker <- ticker ;;
   returns_of ticker symbol target_date prev_day comparison_time,
   shown ++ asked).

Close Scope result_scope.

(** The state the loop works on: the rows appended so far and the events
    so far. *)
Record loop_state : Type := { results : DataFrame; trace : list event }.

(** One turn of the loop: [try: ... except Exception: continue]. *)
Definition turn (total idx : nat) (symbol : string)
    (target_date prev_day : Z) (comparison_time : string)
    (st : loop_state) : loop_state :=
  let (outcome, evs) :=
    try_symbol total idx symbol target_date prev_day comparison_time in
  match outcome with
  | inl _ => {| results := results st; trace := trace st ++ evs |}
  | inr row => {| results := results st ++ [row]; trace := trace st ++ evs |}
  end.

(** [for idx, symbol in enumerate(stock_list)] *)
Fixpoint for_each (total idx : nat) (symbols : list string)
    (target_date prev_day : Z) (comparison_time : string)
    (st : loop_state) : loop_state :=
  match symbols with
  | [] => st
  | symbol :: rest =>
      for_each total (S idx) rest target_date prev_day comparison_time
               (turn total idx symbol target_date prev_day comparison_time st)
  end.

(** Lines 34 to 37: the day whose close the target price is compared
    with. *)
Definition comparison_day (target_date : Z) : result Z :=
  if Calendar.weekday target_date =? 0
  then Calendar.timedelta_sub target_date 3
  else Calendar.timedelta_sub target_date 1.

Context {SV : SortValues}.

(** The calculator, with both optional arguments given (as [main] calls
    it).  It returns the table, or raises, and leaves its events. *)
Definition calculate_stock_returns (stock_list : list string)
    (comparison_date : Calendar.mdy) (comparison_time : string)
    : result DataFrame * list event :=
  match Calendar.strptime comparison_date with
  | inl e => (inl e, [])
  | inr target_date =>
      if Calendar.weekday target_date >=? 5
      then (ret empty_frame, [Warning weekend_msg])
      else
        match comparison_day target_date with
        | inl e => (inl e, [])
        | inr prev_day =>
            let st :=
              for_each (List.length stock_list) 0 stock_list
                       target_date prev_day comparison_time
                       {| results := []; trace := [NewProgress; NewStatus] |} in
            let tr := trace st ++ [EmptyProgress; EmptyStatus] in
            match results st with
            | [] => (ret empty_frame, tr ++ [Warning no_results_msg])
            | _ :: _ => (ret (sort_values (results st)), tr)
            end
        end
  end.

End Calculator.

Arguments ReturnRecord num : clear implicits.
Arguments DataFrame num : clear implicits.
Arguments Bar num : clear implicits.
Arguments Ticker num : clear implicits.
Arguments SortValues num {F}.

(** ** Vocabulary of the properties *)

Section Vocabulary.

Context {num : Type} {F : Float64 num}.
Variable America_New_York : tzinfo.
Variable history : string -> Z -> Z -> result (Ticker num).

(** What the [try] body makes of one symbol, apart from its events. *)
Definition process_symbol (symbol : string) (target_date prev_day : Z)
    (comparison_time : string) : result (ReturnRecord num) :=
  bind (fst (fetch history symbol target_date prev_day))
       (fun ticker => returns_of America_New_York ticker symbol
                                 target_date prev_day comparison_time).

(** Whether a symbol gets through the [try] body. *)
Definition succeeds (symbol : string) (target_date prev_day : Z)
    (comparison_time : string) : bool :=
  match process_symbol symbol target_date prev_day comparison_time with
  | inl _ => false
  | inr _ => true
  end.

(** The rows of the symbols that succeed, in the order of the input
    list. *)
Definition successes (stock_list : list string) (target_date prev_day : Z)
    (comparison_time : string) : list (ReturnRecord num) :=
  flat_map (fun symbol =>
              match process_symbol symbol target_date prev_day
                                   comparison_time with
              | inl _ => []
              | inr row => [row]
              end)
           stock_list.

(** The return of a symbol before rounding. *)
Definition exact_return (symbol : string) (target_date prev_day : Z)
    (comparison_time : string) : result num :=
  bind (fst (fetch history symbol target_date prev_day))
       (fun ticker =>
          bind (closes America_New_York ticker target_date prev_day
                       comparison_time)
               (fun prices => ret (returns_pct (fst prices) (snd prices)))).

(** The two closing prices as the specification words the partition:
    every timestamp is first normalized to US Eastern time, and both the
    target set and the previous set are cut by Eastern dates. *)
Definition closes_after_normalizing (ticker : Ticker num)
    (target_date prev_day : Z) (comparison_time : string)
    : result (num * num) :=
  bind (tz_convert ticker America_New_York) (fun normalized =>
  let target_set := on_date normalized target_date in
  let previous_set := on_date normalized prev_day in
  bind (values_0 (at_time target_set comparison_time)) (fun target_price =>
  bind (iloc_last (bars previous_set)) (fun last_bar =>
  ret (target_price, Close last_bar)))).

(** The date the index of a frame shows for a bar, and the date and the
    time of day New York shows for it. *)
Definition index_date (ticker : Ticker num) (b : Bar num) : Z :=
  strftime_Ymd (wall (index_tz ticker) (ts b)).

Definition eastern_date (b : Bar num) : Z :=
  strftime_Ymd (wall (Some America_New_York) (ts b)).

Definition new_york_time (b : Bar num) : string :=
  strftime_HM (wall (Some America_New_York) (ts b)).

(** [x] is the first, or the last, element of [l] with property [P]. *)
Definition first_such {A : Type} (P : A -> Prop) (x : A) (l : list A) : Prop :=
  exists before after,
    l = before ++ x :: after /\ P x /\ Forall (fun y => ~ P y) before.

Definition last_such {A : Type} (P : A -> Prop) (x : A) (l : list A) : Prop :=
  exists before after,
    l = before ++ x :: after /\ P x /\ Forall (fun y => ~ P y) after.

(** A frame the calculator can read for target date [d], comparison day
    [p] and target time [ct]: its index is tz-aware, one of its bars stands
    under date [d] in the index and shows [ct] in New York, and one of its
    bars stands under date [p] in the index. *)
Definition readable (ticker : Ticker num) (d p : Z) (ct : string) : Prop :=
  index_tz ticker <> None
  /\ (exists b, In b (bars ticker)
                /\ index_date ticker b = d /\ new_york_time b = ct)
  /\ (exists b, In b (bars ticker) /\ index_date ticker b = p).

(** Bars in the order of their instants. *)
Definition chronological (rows : list (Bar num)) : Prop :=
  StronglySorted (fun a b => ts a <= ts b) rows.

(** A provider was asked somewhere in a trace. *)
Definition asked (tr : list event) : Prop :=
  exists symbol start end_, In (History symbol start end_) tr.

End Vocabulary.

(** ** Sorting by insertion *)

Section Insertion.

Context {num : Type} {F : Float64 num}.

(** Put [r] in front of the first row it is [>=] to. *)
Fixpoint insert_desc (r : ReturnRecord num) (df : DataFrame num)
    : DataFrame num :=
  match df with
  | [] => [r]
  | x :: rest =>
      if fge (Return_pct r) (Return_pct x) then r :: df
      else x :: insert_desc r rest
  end.

(** Insertion from the right end: equal keys keep their order. *)
Definition insertion_sort (df : DataFrame num) : DataFrame num :=
  fold_right insert_desc [] df.

(** The rows with a number for key sorted, then the rows with a [nan]
    key in the order they had. *)
Definition nan_last_sort (df : DataFrame num) : DataFrame num :=
  insertion_sort (filter (fun row => negb (nan_row row)) df)
  ++ filter nan_row df.

End Insertion.

(** ** Exact decimal arithmetic, for running the calculator *)

Module Exact.

(** Round half to even at two decimals. *)
Definition q_round2 (x : Q) : Q :=
  let y := Qred (x * 100) in
  let f := Qfloor y in
  let twice_rest := 2 * (Qnum y - f * Zpos (Qden y)) in
  let up :=
    match twice_rest ?= Zpos (Qden y) with
    | Lt => false
    | Gt => true
    | Eq => Z.odd f
    end in
  Qred ((if up then f + 1 else f) # 100).

(** Rationals in lowest terms as stand-in for [float64]; faithful where
    no division by zero and no binary rounding is involved.  No rational is
    [nan]. *)
#[global] Instance exact : Float64 Q := {|
  fsub := fun x y => Qred (x - y);
  fdiv := fun x y => Qred (x / y);
  fmul := fun x y => Qred (x * y);
  of_int := inject_Z;
  round2 := q_round2;
  fge := fun x y => Qle_bool y x;
  isnan := fun _ => false
|}.

(** A price given in cents. *)
Definition cents (c : Z) : Q := Qred (c # 100).

End Exact.

(** ** Exact arithmetic with the special values of [float64] *)

Module Extended.

(** A rational, an infinity or [nan]: the values of [float64] without
    binary rounding and without the sign of zero. *)
Inductive xq : Type :=
| Finite (q : Q)
| PosInf
| NegInf
| NaN.

(** The sign of a rational, and of a value; zero and [nan] have none. *)
Definition sign (q : Q) : comparison := (Qnum q ?= 0).

Definition sign_of (x : xq) : comparison :=
  match x with
  | Finite q => sign q
  | PosInf => Gt
  | NegInf => Lt
  | NaN => Eq
  end.

Definition sign_mul (a b : comparison) : comparison :=
  match a, b with
  | Eq, _ => Eq
  | _, Eq => Eq
  | Gt, s => s
  | Lt, Gt => Lt
  | Lt, Lt => Gt
  end.

(** The infinity of a sign; without sign, [nan]. *)
Definition inf_of (s : comparison) : xq :=
  match s with
  | Gt => PosInf
  | Lt => NegInf
  | Eq => NaN
  end.

Definition xsub (x y : xq) : xq :=
  match x, y with
  | NaN, _ => NaN
  | _, NaN => NaN
  | Finite a, Finite b => Finite (Qred (a - b))
  | Finite _, PosInf => NegInf
  | Finite _, NegInf => PosInf
  | PosInf, PosInf => NaN
  | PosInf, _ => PosInf
  | NegInf, NegInf => NaN
  | NegInf, _ => NegInf
  end.

(** Division: a number by zero is an infinity of its sign, zero by zero
    is [nan], as on [float64]. *)
Definition xdiv (x y : xq) : xq :=
  match x, y with
  | NaN, _ => NaN
  | _, NaN => NaN
  | Finite a, Finite b =>
      if Qeq_bool b 0 then inf_of (sign a) else Finite (Qred (a / b))
  | Finite _, _ => Finite 0
  | _, Finite b =>
      inf_of (sign_mul (sign_of x)
                       (match sign b with Lt => Lt | _ => Gt end))
  | _, _ => NaN
  end.

Definition xmul (x y : xq) : xq :=
  match x, y with
  | NaN, _ => NaN
  | _, NaN => NaN
  | Finite a, Finite b => Finite (Qred (a * b))
  | _, _ => inf_of (sign_mul (sign_of x) (sign_of y))
  end.

Definition xround2 (x : xq) : xq :=
  match x with
  | Finite q => Finite (Exact.q_round2 q)
  | _ => x
  end.

(** [x >= y]: false as soon as one side is [nan]. *)
Definition xge (x y : xq) : bool :=
  match x, y with
  | NaN, _ => false
  | _, NaN => false
  | PosInf, _ => true
  | _, NegInf => true
  | Finite a, Finite b => Qle_bool b a
  | Finite _, PosInf => false
  | NegInf, _ => false
  end.

Definition xisnan (x : xq) : bool :=
  match x with
  | NaN => true
  | _ => false
  end.

#[global] Instance extended : Float64 xq := {|
  fsub := xsub;
  fdiv := xdiv;
  fmul := xmul;
  of_int := fun z => Finite (inject_Z z);
  round2 := xround2;
  fge := xge;
  isnan := xisnan
|}.

(** A price given in cents. *)
Definition cents (c : Z) : xq := Finite (Exact.cents c).

End Extended.

(** ** Sample data *)

Module Sample.

Import Exact.

(** Fixed-offset zones: Eastern standard time and Japan standard time. *)
Definition EST : tzinfo := fun _ => -18000.
Definition JST : tzinfo := fun _ => 32400.

(** The instant at which a zone with UTC offset [offset] shows the given
    date and time. *)
Definition instant (year month day hh mm : Z) (offset : Z) : Z :=
  (Calendar.ymd2ord year month day - Calendar.EPOCH) * 86400
  + hh * 3600 + mm * 60 - offset.

Definition bar (year month day hh mm : Z) (offset : Z) (c : Z) : Bar Q :=
  {| ts := instant year month day hh mm offset; Close := cents c |}.

(** Hourly bars of Tuesday 2024-12-17 and Wednesday 2024-12-18, New York
    time. *)
Definition aapl : Ticker Q :=
  {| index_tz := Some EST;
     bars := [ bar 2024 12 17 14 30 (-18000) 9950;
               bar 2024 12 17 15 30 (-18000) 10000;
               bar 2024 12 18 9 30 (-18000) 10500;
               bar 2024 12 18 10 30 (-18000) 10600 ] |}.

Definition tsla : Ticker Q :=
  {| index_tz := Some EST;
     bars := [ bar 2024 12 17 15 30 (-18000) 20000;
               bar 2024 12 18 9 30 (-18000) 21000 ] |}.

(** Return 5.004 per cent before rounding. *)
Definition nvda : Ticker Q :=
  {| index_tz := Some EST;
     bars := [ bar 2024 12 17 15 30 (-18000) 100000;
               bar 2024 12 18 9 30 (-18000) 105004 ] |}.

(** Return 5.001 per cent before rounding. *)
Definition amd : Ticker Q :=
  {| index_tz := Some EST;
     bars := [ bar 2024 12 17 15 30 (-18000) 100000;
               bar 2024 12 18 9 30 (-18000) 105001 ] |}.

Definition ibm : Ticker Q :=
  {| index_tz := Some EST;
     bars := [ bar 2024 12 17 15 30 (-18000) 20000;
               bar 2024 12 18 9 30 (-18000) 20200 ] |}.

(** The same bar delivered twice, with different closes. *)
Definition dupl : Ticker Q :=
  {| index_tz := Some EST;
     bars := [ bar 2024 12 17 15 30 (-18000) 10000;
               bar 2024 12 18 9 30 (-18000) 10100;
               bar 2024 12 18 9 30 (-18000) 10900 ] |}.

(** A Tokyo listing: the index is in Japan time.  The bars of the
    afternoon of 2024-12-17 and of 2024-12-18, Tokyo dates. *)
Definition toyota : Ticker Q :=
  {| index_tz := Some JST;
     bars := [ bar 2024 12 17 12 30 32400 270000;
               bar 2024 12 17 14 30 32400 272000;
               bar 2024 12 18 12 30 32400 275000;
               bar 2024 12 18 14 30 32400 276000 ] |}.

(** A provider: known symbols have bars, ["MSFT"] comes back empty,
    ["NAIVE"] comes back with a naive index, anything else raises. *)
Definition history (symbol : string) (start end_ : Z) : result (Ticker Q) :=
  if String.eqb symbol "AAPL" then ret aapl
  else if String.eqb symbol "TSLA" then ret tsla
  else if String.eqb symbol "NVDA" then ret nvda
  else if String.eqb symbol "AMD" then ret amd
  else if String.eqb symbol "IBM" then ret ibm
  else if String.eqb symbol "DUPL" then ret dupl
  else if String.eqb symbol "7203.T" then ret toyota
  else if String.eqb symbol "MSFT" then ret {| index_tz := Some EST; bars := [] |}
  else if String.eqb symbol "NAIVE"
       then ret {| index_tz := None; bars := bars aapl |}
  else raise ProviderError.

(** A bar with any rational close. *)
Definition bar_q (year month day hh mm : Z) (offset : Z) (c : Q) : Bar Q :=
  {| ts := instant year month day hh mm offset; Close := Qred c |}.

(** The bars of the comparison day delivered out of order. *)
Definition shuffled : Ticker Q :=
  {| index_tz := Some EST;
     bars := [ bar 2024 12 17 15 30 (-18000) 10000;
               bar 2024 12 17 14 30 (-18000) 9950;
               bar 2024 12 18 9 30 (-18000) 10500 ] |}.

(** Two bars at 09:30 on the target date, after one at 08:30. *)
Definition twice : Ticker Q :=
  {| index_tz := Some EST;
     bars := [ bar 2024 12 17 15 30 (-18000) 10000;
               bar 2024 12 18 8 30 (-18000) 10050;
               bar 2024 12 18 9 30 (-18000) 10100;
               bar 2024 12 18 10 30 (-18000) 10300;
               bar 2024 12 18 9 30 (-18000) 10900 ] |}.

(** Closes that differ below the cent: returns 5.0001 and 5.0004 per
    cent. *)
Definition fine_low : Ticker Q :=
  {| index_tz := Some EST;
     bars := [ bar 2024 12 17 15 30 (-18000) 100000;
               bar_q 2024 12 18 9 30 (-18000) (1050001 # 1000) ] |}.

Definition fine_high : Ticker Q :=
  {| index_tz := Some EST;
     bars := [ bar 2024 12 17 15 30 (-18000) 100000;
               bar_q 2024 12 18 9 30 (-18000) (1050004 # 1000) ] |}.

(** A second provider, and the same with the frames of ["P"] and ["R"]
    exchanged. *)
Definition history2 (symbol : string) (start end_ : Z) : result (Ticker Q) :=
  if String.eqb symbol "SHUF" then ret shuffled
  else if String.eqb symbol "TWICE" then ret twice
  else if String.eqb symbol "P" then ret fine_low
  else if String.eqb symbol "R" then ret fine_high
  else raise ProviderError.

Definition history2_exchanged (symbol : string) (start end_ : Z)
    : result (Ticker Q) :=
  if String.eqb symbol "P" then ret fine_high
  else if String.eqb symbol "R" then ret fine_low
  else raise ProviderError.

(** A row given in cents, with its return in hundredths of a per cent. *)
Definition row (symbol : string) (prev target ret_pct : Z) : ReturnRecord Q :=
  {| Symbol := symbol;
     Previous_Close := cents prev;
     Target_Price := cents target;
     Return_pct := cents ret_pct |}.

(** The text area with one symbol per line. *)
Definition text_area (lines : list string) : string :=
  String.concat (String Text.LF EmptyString) lines.

Definition wednesday : Calendar.mdy := Calendar.MDY 12 18 2024.
Definition monday : Calendar.mdy := Calendar.MDY 12 16 2024.
Definition saturday : Calendar.mdy := Calendar.MDY 12 21 2024.
Definition sunday : Calendar.mdy := Calendar.MDY 12 22 2024.

End Sample.

(** ** Sample data with special values *)

Module Special.

Import Extended.

Definition bar (year month day hh mm : Z) (c : xq) : Bar xq :=
  {| ts := Sample.instant year month day hh mm (-18000); Close := c |}.

Definition aapl : Ticker xq :=
  {| index_tz := Some Sample.EST;
     bars := [ bar 2024 12 17 15 30 (cents 10000);
               bar 2024 12 18 9 30 (cents 10500) ] |}.

(** The 09:30 bar of the target date delivered without a close. *)
Definition gap : Ticker xq :=
  {| index_tz := Some Sample.EST;
     bars := [ bar 2024 12 17 15 30 (cents 20000);
               bar 2024 12 18 9 30 NaN ] |}.

(** A close of zero on the comparison day. *)
Definition zero : Ticker xq :=
  {| index_tz := Some Sample.EST;
     bars := [ bar 2024 12 17 15 30 (cents 0);
               bar 2024 12 18 9 30 (cents 10500) ] |}.

Definition history (symbol : string) (start end_ : Z) : result (Ticker xq) :=
  if String.eqb symbol "AAPL" then ret aapl
  else if String.eqb symbol "GAP" then ret gap
  else if String.eqb symbol "ZERO" then ret zero
  else raise ProviderError.

Definition row (symbol : string) (prev target ret_pct : xq)
    : ReturnRecord xq :=
  {| Symbol := symbol;
     Previous_Close := prev;
     Target_Price := target;
     Return_pct := ret_pct |}.

End Special.

(** ** The page: [get_table_download_link] and [main] *)

(** [base64.b64encode] (RFC 4648, with padding), on ASCII text. *)
Module Base64.

Definition alphabet : string :=
  "ABCDEFGHIJKLMNOPQRSTUVWXYZabcdefghijklmnopqrstuvwxyz0123456789+/".

Definition PAD : ascii := ascii_of_nat 61.

Definition byte (c : ascii) : Z := Z.of_N (N_of_ascii c).

Definition chr (z : Z) : ascii := ascii_of_N (Z.to_N z).

(** The character that stands for six bits. *)
Definition sextet (i : Z) : ascii :=
  match String.get (Z.to_nat i) alphabet with
  | Some c => c
  | None => PAD
  end.

Fixpoint b64encode (data : string) : string :=
  match data with
  | EmptyString => EmptyString
  | String a EmptyString =>
      String (sextet (byte a / 4))
        (String (sextet (byte a mod 4 * 16))
           (String PAD (String PAD EmptyString)))
  | String a (String b EmptyString) =>
      String (sextet (byte a / 4))
        (String (sextet (byte a mod 4 * 16 + byte b / 16))
           (String (sextet (byte b mod 16 * 4))
              (String PAD EmptyString)))
  | String a (String b (String c rest)) =>
      String (sextet (byte a / 4))
        (String (sextet (byte a mod 4 * 16 + byte b / 16))
           (String (sextet (byte b mod 16 * 4 + byte c / 64))
              (String (sextet (byte c mod 64))
                 (b64encode rest))))
  end.

(** The six bits a character of the alphabet stands for. *)
Definition value (c : ascii) : option Z :=
  let n := byte c in
  if (65 <=? n) && (n <=? 90) then Some (n - 65)
  else if (97 <=? n) && (n <=? 122) then Some (n - 71)
  else if (48 <=? n) && (n <=? 57) then Some (n + 4)
  else if n =? 43 then Some 62
  else if n =? 47 then Some 63
  else None.

(** A character that can occur in base64 text. *)
Definition is_b64_char (c : ascii) : bool :=
  match value c with
  | Some _ => true
  | None => Ascii.eqb c PAD
  end.

(** The decoding of padded base64 text, as a reader of the link applies
    it; [None] on text that is not base64. *)
Fixpoint b64decode (text : string) : option string :=
  match text with
  | EmptyString => Some EmptyString
  | String c0 (String c1 (String c2 (String c3 rest))) =>
      match value c0, value c1 with
      | Some v0, Some v1 =>
          if Ascii.eqb c3 PAD then
            match rest with
            | EmptyString =>
                if Ascii.eqb c2 PAD
                then Some (String (chr (v0 * 4 + v1 / 16)) EmptyString)
                else match value c2 with
                     | Some v2 =>
                         Some (String (chr (v0 * 4 + v1 / 16))
                                 (String (chr (v1 mod 16 * 16 + v2 / 4))
                                    EmptyString))
                     | None => None
                     end
            | String _ _ => None
            end
          else
            match value c2, value c3, b64decode rest with
            | Some v2, Some v3, Some tail =>
                Some (String (chr (v0 * 4 + v1 / 16))
                        (String (chr (v1 mod 16 * 16 + v2 / 4))
                           (String (chr (v2 mod 4 * 64 + v3)) tail)))
            | _, _, _ => None
            end
      | _, _ => None
      end
  | _ => None
  end.

End Base64.

Definition DQUOTE : ascii := ascii_of_nat 34.

(** The text of the anchor before and after the encoded table. *)
Definition link_prefix : string :=
  String.append "<a href=" (String DQUOTE "data:file/csv;base64,").

Definition link_suffix : string :=
  String DQUOTE
    (String.append " download="
       (String DQUOTE
          (String.append "stock_returns.csv"
             (String DQUOTE ">Download CSV file</a>")))).

Definition enter_symbols_msg : string :=
  "Please enter stock symbols to begin.".

Section Page.

Context {num : Type} {F : Float64 num} {SV : SortValues num}.
Variable America_New_York : tzinfo.
Variable history : string -> Z -> Z -> result (Ticker num).

(** [df.to_csv(index=False)], the CSV text pandas writes for a table. *)
Variable to_csv : DataFrame num -> string.

(** [get_table_download_link]: the CSV text, base64-encoded, inside an
    anchor.  [csv.encode()] and [.decode()] change nothing on ASCII
    text. *)
Definition get_table_download_link (df : DataFrame num) : string :=
  let csv := to_csv df in
  let b64 := Base64.b64encode csv in
  String.append link_prefix (String.append b64 link_suffix).

(** [df.head(n)], [df.tail(n)] and [df.iloc[::-1]]. *)
Definition head (n : nat) (df : DataFrame num) : DataFrame num :=
  firstn n df.

Definition tail (n : nat) (df : DataFrame num) : DataFrame num :=
  skipn (List.length df - n) df.

Definition reversed (df : DataFrame num) : DataFrame num := rev df.

(** What [main] puts on the page after the static decoration, in order:
    the count in the side bar, the events of the calculator, the request to
    enter symbols (a warning after a click, an information otherwise), the
    three tabs with the link, and the footer rule. *)
Inductive page_event : Type :=
| Loaded (count : nat)
| Calculator (ev : event)
| EnterSymbols (after_click : bool)
| TableView (df : DataFrame num) (link : string)
| TopPerformers (top_10 : DataFrame num)
| BottomPerformers (bottom_10 : DataFrame num)
| Footer.

(** [main], from the reading of the widgets on (lines 127 to 209), given
    the text of the text area, the date and the time the widgets hold and
    whether the button was clicked.  The four metrics of the summary are
    formatted inside a [try] whose handler passes; they show nothing else
    and are left out. *)
Definition main (stock_input : string) (comparison_date : Calendar.mdy)
    (comparison_time : string) (button : bool)
    : result unit * list page_event :=
  let stocks_list := Text.stocks_list stock_input in
  let loaded := [Loaded (List.length stocks_list)] in
  if button then
    match stocks_list with
    | [] => (ret tt, loaded ++ [EnterSymbols true])
    | _ :: _ =>
        let (outcome, evs) :=
          calculate_stock_returns America_New_York history
                                  stocks_list comparison_date
                                  comparison_time in
        match outcome with
        | inl e => (inl e, loaded ++ map Calculator evs)
        | inr df =>
            let top_10 := head 10 df in
            let bottom_10 := reversed (tail 10 df) in
            (ret tt,
             loaded ++ map Calculator evs
             ++ [TableView df (get_table_download_link df);
                 TopPerformers top_10;
                 BottomPerformers bottom_10;
                 Footer])
        end
    end
  else (ret tt, loaded ++ [EnterSymbols false; Footer]).

End Page.

(** ** Vocabulary of the further properties *)

Definition is_history (ev : event) : bool :=
  match ev with
  | History _ _ _ => true
  | _ => false
  end.

(** The events that report progress: the bar and the status text. *)
Definition is_report (ev : event) : bool :=
  match ev with
  | Progress _ _ | StatusText _ _ _ => true
  | _ => false
  end.

(** The events one turn of the loop leaves. *)
Definition turn_events (total idx : nat) (symbol : string)
    (prev_day : Z) (end_ : result Z) : list event :=
  [Progress (S idx) total; StatusText symbol (S idx) total]
  ++ match end_ with
     | inl _ => []
     | inr e => [History symbol prev_day e]
     end.

(** The events of the whole loop. *)
Fixpoint loop_events (total idx : nat) (symbols : list string)
    (prev_day : Z) (end_ : result Z) : list event :=
  match symbols with
  | [] => []
  | symbol :: rest =>
      turn_events total idx symbol prev_day end_
      ++ loop_events total (S idx) rest prev_day end_
  end.

(** A string without line feed. *)
Fixpoint no_LF (s : string) : Prop :=
  match s with
  | EmptyString => True
  | String c s' => c <> Text.LF /\ no_LF s'
  end.

(** A stand-in for [to_csv], for running the page: a header and the
    symbols, one per line. *)
Definition sample_to_csv (df : DataFrame Q) : string :=
  String.concat (String Text.LF EmptyString) ("Symbol" :: map Symbol df).

Section Orders.

Context {num : Type} {F : Float64 num}.

(** Rows in ascending order of the [Return (%)] column. *)
Definition ascending (df : DataFrame num) : Prop :=
  Sorted (fun a b => fge (Return_pct b) (Return_pct a) = true) df.

End Orders.

(** * Properties *)

(** ** The calendar *)

Module CalendarFacts.

Import Calendar.

Lemma day_of_year_bound (y m d : Z) :
  1 <= m <= 12 -> 1 <= d <= days_in_month y m ->
  1 <= days_before_month y m + d <= 365 + (if is_leap y then 1 else 0).
Proof.
  intros Hm Hd.
  assert (Hcases : m = 1 \/ m = 2 \/ m = 3 \/ m = 4 \/ m = 5 \/ m = 6 \/
                   m = 7 \/ m = 8 \/ m = 9 \/ m = 10 \/ m = 11 \/ m = 12)
    by lia.
  unfold days_before_month, days_in_month in *.
  destruct (is_leap y);
    repeat (destruct Hcases as [-> | Hcases]); try subst m;
    match goal with
    | |- _ <= ?a + d <= _ =>
        let x := fresh in set (x := a); vm_compute in x; subst x
    end;
    match type of Hd with
    | _ <= d <= ?a =>
        let x := fresh in set (x := a) in Hd; vm_compute in x; subst x
    end; lia.
Qed.

Lemma days_before_year_step (y : Z) :
  days_before_year y + 365 + (if is_leap y then 1 else 0)
  = days_before_year (y + 1).
Proof.
  unfold days_before_year, is_leap. cbv zeta.
  replace (y + 1 - 1) with y by lia.
  destruct (Z.eqb_spec (y mod 4) 0), (Z.eqb_spec (y mod 100) 0),
           (Z.eqb_spec (y mod 400) 0); simpl;
    Z.div_mod_to_equations; lia.
Qed.

(** A parsed date lies between [date.min] and [date.max]. *)
Lemma strptime_range (s : mdy) (d : Z) :
  strptime s = inr d -> 1 <= d <= MAXORDINAL.
Proof.
  unfold strptime.
  destruct (_ && _) eqn:Hok; [| discriminate].
  intros [= <-].
  repeat rewrite andb_true_iff in Hok. repeat rewrite Z.leb_le in Hok.
  destruct Hok as [[[[[Hy1 Hy2] Hm1] Hm2] Hd1] Hd2].
  pose proof (day_of_year_bound (year s) (month s) (day s)
                (conj Hm1 Hm2) (conj Hd1 Hd2)) as Hdoy.
  pose proof (days_before_year_step (year s)) as Hstep.
  unfold ymd2ord, MAXORDINAL, MAXYEAR in *.
  assert (0 <= days_before_year (year s))
    by (unfold days_before_year; cbv zeta; Z.div_mod_to_equations; lia).
  assert (days_before_year (year s + 1) <= 3652059)
    by (unfold days_before_year; cbv zeta; Z.div_mod_to_equations; lia).
  lia.
Qed.

(** A Monday other than 0001-01-01 has a day three days before it. *)
Lemma monday_not_first (d : Z) :
  1 < d -> weekday d = 0 -> 8 <= d.
Proof.
  unfold weekday. intros. Z.div_mod_to_equations. lia.
Qed.

Lemma weekday_range (d : Z) : 0 <= weekday d < 7.
Proof. unfold weekday. apply Z.mod_pos_bound. lia. Qed.

End CalendarFacts.

(** ** The loop *)

Section Loop.

Context {num : Type} {F : Float64 num}.
Variable America_New_York : tzinfo.
Variable history : string -> Z -> Z -> result (Ticker num).

Local Abbreviation process := (process_symbol America_New_York history).
Local Abbreviation rows_of := (successes America_New_York history).

(** The events of the [try] body do not decide its outcome. *)
Lemma try_symbol_outcome total idx symbol target_date prev_day ct :
  fst (try_symbol America_New_York history total idx symbol
                  target_date prev_day ct)
  = process symbol target_date prev_day ct.
Proof.
  unfold try_symbol, process_symbol.
  destruct (fetch history symbol target_date prev_day); reflexivity.
Qed.

(** The provider is asked at most once per turn, from [prev_day] on. *)
Lemma try_symbol_events total idx symbol target_date prev_day ct s a b :
  In (History s a b)
     (snd (try_symbol America_New_York history total idx symbol
                      target_date prev_day ct)) ->
  s = symbol /\ a = prev_day /\ Calendar.timedelta_add target_date 1 = inr b.
Proof.
  unfold try_symbol, fetch.
  destruct (Calendar.timedelta_add target_date 1) as [e | end_]; simpl.
  - intros [H | [H | []]]; discriminate.
  - intros [H | [H | [H | []]]]; try discriminate.
    injection H as <- <- <-. auto.
Qed.

Lemma turn_results total idx symbol target_date prev_day ct st :
  results (turn America_New_York history total idx symbol
                target_date prev_day ct st)
  = results st ++ rows_of [symbol] target_date prev_day ct.
Proof.
  unfold turn, successes. simpl.
  rewrite <- (try_symbol_outcome total idx).
  destruct (try_symbol _ _ _ _ _ _ _ _) as [[e | row] evs]; simpl.
  - now rewrite app_nil_r.
  - reflexivity.
Qed.

Lemma turn_trace total idx symbol target_date prev_day ct st :
  trace (turn America_New_York history total idx symbol
              target_date prev_day ct st)
  = trace st ++ snd (try_symbol America_New_York history total idx symbol
                                target_date prev_day ct).
Proof.
  unfold turn.
  destruct (try_symbol _ _ _ _ _ _ _ _) as [[e | row] evs]; reflexivity.
Qed.

Lemma successes_cons symbol rest target_date prev_day ct :
  rows_of (symbol :: rest) target_date prev_day ct
  = rows_of [symbol] target_date prev_day ct
    ++ rows_of rest target_date prev_day ct.
Proof.
  unfold successes. simpl. now rewrite app_nil_r.
Qed.

(** The loop appends to [results] the rows of the symbols that succeed,
    in the order of the list; a symbol that raises leaves [results] as it
    was and the loop goes on. *)
Lemma for_each_results symbols :
  forall total idx target_date prev_day ct st,
    results (for_each America_New_York history total idx symbols
                      target_date prev_day ct st)
    = results st ++ rows_of symbols target_date prev_day ct.
Proof.
  induction symbols as [| symbol rest IH]; intros.
  - unfold successes. simpl. now rewrite app_nil_r.
  - cbn [for_each]. rewrite IH, turn_results.
    rewrite (successes_cons symbol rest). symmetry. apply app_assoc.
Qed.

(** Every request of the loop starts at [prev_day]. *)
Lemma for_each_trace symbols :
  forall total idx target_date prev_day ct st s a b,
    In (History s a b)
       (trace (for_each America_New_York history total idx symbols
                        target_date prev_day ct st)) ->
    In (History s a b) (trace st) \/
    (In s symbols /\ a = prev_day /\
     Calendar.timedelta_add target_date 1 = inr b).
Proof.
  induction symbols as [| symbol rest IH]; intros; simpl in *.
  - now left.
  - apply IH in H. destruct H as [H | (Hin & Ha & Hb)].
    + rewrite turn_trace in H. apply in_app_or in H.
      destruct H as [H | H]; [now left |].
      apply try_symbol_events in H. destruct H as (-> & -> & Hb).
      right. repeat split; [now left | assumption].
    + right. repeat split; [now right | assumption | assumption].
Qed.

(** Each row of [successes] is the row of a symbol of the list. *)
Lemma in_successes row symbols target_date prev_day ct :
  In row (rows_of symbols target_date prev_day ct) <->
  exists symbol, In symbol symbols /\
                 process symbol target_date prev_day ct = inr row.
Proof.
  unfold successes. rewrite in_flat_map. split.
  - intros (symbol & Hin & Hrow). exists symbol. split; [assumption |].
    destruct (process symbol target_date prev_day ct) as [e | r];
      simpl in Hrow; [contradiction |].
    destruct Hrow as [-> | []]. reflexivity.
  - intros (symbol & Hin & Hrow). exists symbol. split; [assumption |].
    rewrite Hrow. now left.
Qed.

(** A row carries the symbol it was computed for. *)
Lemma process_symbol_Symbol symbol target_date prev_day ct row :
  process symbol target_date prev_day ct = inr row -> Symbol row = symbol.
Proof.
  unfold process_symbol, returns_of, bind.
  destruct (fst (fetch history symbol target_date prev_day)) as [e | tk];
    [discriminate |].
  destruct (closes _ _ _ _ _) as [e | prices]; [discriminate |].
  intros [= <-]. reflexivity.
Qed.

(** The symbols of the rows are the succeeding symbols of the input
    list, one row for each. *)
Lemma successes_symbols symbols target_date prev_day ct :
  map Symbol (rows_of symbols target_date prev_day ct)
  = filter (fun symbol => succeeds America_New_York history symbol
                                   target_date prev_day ct)
           symbols.
Proof.
  induction symbols as [| symbol rest IH].
  - reflexivity.
  - rewrite successes_cons, map_app, IH. unfold successes, succeeds. simpl.
    destruct (process symbol target_date prev_day ct) as [e | row] eqn:E.
    + reflexivity.
    + simpl. now rewrite (process_symbol_Symbol _ _ _ _ _ E).
Qed.

Lemma successes_length symbols target_date prev_day ct :
  (List.length (rows_of symbols target_date prev_day ct)
   <= List.length symbols)%nat.
Proof.
  rewrite <- (length_map Symbol), successes_symbols.
  apply filter_length_le.
Qed.

(** What a succeeding symbol went through: the request, the reading of
    the frame, the row. *)
Lemma process_symbol_inr symbol target_date prev_day ct row :
  process symbol target_date prev_day ct = inr row ->
  exists end_ ticker prices,
    Calendar.timedelta_add target_date 1 = inr end_
    /\ history symbol prev_day end_ = inr ticker
    /\ closes America_New_York ticker target_date prev_day ct = inr prices
    /\ row = record symbol (fst prices) (snd prices).
Proof.
  unfold process_symbol, fetch, returns_of, bind.
  destruct (Calendar.timedelta_add target_date 1) as [e | end_];
    [discriminate |].
  simpl.
  destruct (history symbol prev_day end_) as [e | ticker] eqn:Hh;
    [discriminate |].
  destruct (closes _ _ _ _ _) as [e | prices] eqn:Hc; [discriminate |].
  intros [= <-]. exists end_, ticker, prices. auto.
Qed.

(** The stored return is the rounded exact return. *)
Lemma process_symbol_exact symbol target_date prev_day ct row :
  process symbol target_date prev_day ct = inr row ->
  exists x,
    exact_return America_New_York history symbol target_date prev_day ct
    = inr x
    /\ Return_pct row = round2 x.
Proof.
  unfold process_symbol, exact_return, returns_of, bind.
  destruct (fst (fetch history symbol target_date prev_day)) as [e | tk];
    [discriminate |].
  destruct (closes _ _ _ _ _) as [e | prices]; [discriminate |].
  intros [= <-]. eexists. split; reflexivity.
Qed.

Context {SV : SortValues num}.

Lemma numbers_then_nans_nil : numbers_then_nans (@nil (ReturnRecord num)).
Proof. exists [], []. repeat split; constructor. Qed.

(** On a weekday that has a comparison day, the calculator returns the
    rows of the succeeding symbols, rearranged by [sort_values]. *)
Lemma calculate_table stock_list cd ct target_date prev_day :
  Calendar.strptime cd = inr target_date ->
  Calendar.weekday target_date < 5 ->
  comparison_day target_date = inr prev_day ->
  exists df,
    fst (calculate_stock_returns America_New_York history stock_list cd ct)
    = inr df
    /\ Permutation df (rows_of stock_list target_date prev_day ct)
    /\ numbers_then_nans df.
Proof.
  intros Hdate Hweek Hprev. unfold calculate_stock_returns.
  rewrite Hdate.
  destruct (Z.geb_spec (Calendar.weekday target_date) 5) as [Hge | _];
    [lia |].
  rewrite Hprev.
  pose proof (for_each_results stock_list (List.length stock_list) 0%nat
                target_date prev_day ct
                {| results := []; trace := [NewProgress; NewStatus] |}) as Hres.
  simpl in Hres.
  destruct (results _) as [| row rows] eqn:E; simpl.
  - exists []. rewrite <- Hres.
    split; [reflexivity |]. split; [constructor |].
    apply numbers_then_nans_nil.
  - exists (sort_values (row :: rows)). rewrite <- Hres.
    split; [reflexivity |]. split.
    + apply sort_values_perm.
    + apply sort_values_order.
Qed.

(** The events of a run on such a day. *)
Lemma calculate_requests stock_list cd ct target_date prev_day s a b :
  Calendar.strptime cd = inr target_date ->
  Calendar.weekday target_date < 5 ->
  comparison_day target_date = inr prev_day ->
  In (History s a b)
     (snd (calculate_stock_returns America_New_York history
                                   stock_list cd ct)) ->
  In s stock_list /\ a = prev_day.
Proof.
  intros Hdate Hweek Hprev. unfold calculate_stock_returns.
  rewrite Hdate.
  destruct (Z.geb_spec (Calendar.weekday target_date) 5) as [Hge | _];
    [lia |].
  rewrite Hprev.
  set (st := for_each _ _ _ _ _ _ _ _ _).
  assert (Hin : In (History s a b) (trace st ++ [EmptyProgress; EmptyStatus])
                -> In s stock_list /\ a = prev_day).
  { intros H. apply in_app_or in H. destruct H as [H | H].
    - apply for_each_trace in H. destruct H as [H | (Hs & Ha & _)]; [| auto].
      simpl in H. destruct H as [H | [H | []]]; discriminate.
    - simpl in H. destruct H as [H | [H | []]]; discriminate. }
  destruct (results st); simpl; intros H.
  - apply in_app_or in H. destruct H as [H | H]; [auto |].
    simpl in H. destruct H as [H | []]; discriminate.
  - auto.
Qed.

(** What a returned table can be. *)
Lemma calculate_inr stock_list cd ct df :
  fst (calculate_stock_returns America_New_York history stock_list cd ct)
  = inr df ->
  exists d,
    Calendar.strptime cd = inr d
    /\ ((5 <= Calendar.weekday d /\ df = [])
        \/ (Calendar.weekday d < 5
            /\ exists p, comparison_day d = inr p
                 /\ Permutation df (rows_of stock_list d p ct)
                 /\ numbers_then_nans df)).
Proof.
  intros Hrun.
  destruct (Calendar.strptime cd) as [e | d] eqn:Hdate.
  - unfold calculate_stock_returns in Hrun. rewrite Hdate in Hrun.
    discriminate.
  - exists d. split; [reflexivity |].
    destruct (Z.lt_ge_cases (Calendar.weekday d) 5) as [Hweek | Hweek].
    + right. split; [assumption |].
      destruct (comparison_day d) as [e | p] eqn:Hprev.
      * unfold calculate_stock_returns in Hrun. rewrite Hdate in Hrun.
        destruct (Z.geb_spec (Calendar.weekday d) 5); [lia |].
        rewrite Hprev in Hrun. discriminate.
      * exists p. split; [reflexivity |].
        destruct (calculate_table stock_list cd ct d p Hdate Hweek Hprev)
          as (df' & Hdf & Hperm & Hsorted).
        rewrite Hdf in Hrun. injection Hrun as <-. auto.
    + left. split; [assumption |].
      unfold calculate_stock_returns in Hrun. rewrite Hdate in Hrun.
      destruct (Z.geb_spec (Calendar.weekday d) 5); [| lia].
      simpl in Hrun. now injection Hrun as <-.
Qed.

End Loop.

(** ** An implementation of [sort_values] *)

Section InsertionFacts.

Context {num : Type} {F : Float64 num}.

(** The comparison orders any two keys that are numbers, as [>=] does on
    [float64]. *)
Hypothesis fge_total :
  forall x y : num,
    isnan x = false -> isnan y = false ->
    fge x y = true \/ fge y x = true.

Local Abbreviation number_row :=
  (fun row : ReturnRecord num => nan_row row = false).

Lemma insert_desc_perm (r : ReturnRecord num) (df : DataFrame num) :
  Permutation (insert_desc r df) (r :: df).
Proof.
  induction df as [| x rest IH]; simpl.
  - apply Permutation_refl.
  - destruct (fge (Return_pct r) (Return_pct x)).
    + apply Permutation_refl.
    + eapply perm_trans; [apply perm_skip, IH | apply perm_swap].
Qed.

Lemma insert_desc_descending (r : ReturnRecord num) (df : DataFrame num) :
  number_row r -> Forall number_row df ->
  descending df -> descending (insert_desc r df).
Proof.
  unfold descending, nan_row. intros Hr Hall Hsorted.
  induction Hsorted as [| x rest Hsorted IH Hhd]; simpl.
  - repeat constructor.
  - inversion Hall as [| ? ? Hx Hrest]; subst.
    destruct (fge (Return_pct r) (Return_pct x)) eqn:E.
    + constructor; [constructor; assumption | constructor; assumption].
    + constructor; [now apply IH |].
      destruct rest as [| y rest']; simpl.
      * constructor.
        destruct (fge_total (Return_pct r) (Return_pct x) Hr Hx); congruence.
      * destruct (fge (Return_pct r) (Return_pct y)).
        -- constructor.
           destruct (fge_total (Return_pct r) (Return_pct x) Hr Hx);
             congruence.
        -- constructor. now inversion Hhd.
Qed.

Lemma insertion_sort_perm (df : DataFrame num) :
  Permutation (insertion_sort df) df.
Proof.
  induction df as [| r rest IH]; simpl.
  - constructor.
  - eapply perm_trans; [apply insert_desc_perm | now apply perm_skip].
Qed.

Lemma insertion_sort_descending (df : DataFrame num) :
  Forall number_row df -> descending (insertion_sort df).
Proof.
  induction 1 as [| r rest Hr Hrest IH]; simpl.
  - constructor.
  - apply insert_desc_descending; [assumption | | assumption].
    rewrite Forall_forall in *. intros x Hx. apply Hrest.
    now apply (Permutation_in _ (insertion_sort_perm rest)).
Qed.

Lemma partition_perm (keep : ReturnRecord num -> bool) (df : DataFrame num) :
  Permutation (filter (fun row => negb (keep row)) df ++ filter keep df) df.
Proof.
  induction df as [| r rest IH]; simpl; [constructor |].
  destruct (keep r); simpl.
  - apply Permutation_sym, Permutation_cons_app, Permutation_sym, IH.
  - now apply perm_skip.
Qed.

Lemma nan_last_sort_perm (df : DataFrame num) :
  Permutation (nan_last_sort df) df.
Proof.
  unfold nan_last_sort.
  eapply perm_trans; [| apply (partition_perm nan_row)].
  apply Permutation_app_tail, insertion_sort_perm.
Qed.

Lemma nan_last_sort_order (df : DataFrame num) :
  numbers_then_nans (nan_last_sort df).
Proof.
  exists (insertion_sort (filter (fun row => negb (nan_row row)) df)),
         (filter nan_row df).
  assert (Hnum : Forall number_row
                        (filter (fun row => negb (nan_row row)) df)).
  { apply Forall_forall. intros x Hx. apply filter_In in Hx.
    destruct Hx as [_ Hx]. now apply negb_true_iff in Hx. }
  repeat split.
  - rewrite Forall_forall in *. intros x Hx. apply Hnum.
    now apply (Permutation_in _ (insertion_sort_perm _)).
  - now apply insertion_sort_descending.
  - apply Forall_forall. intros x Hx. now apply filter_In in Hx.
Qed.

(** A [sort_values]: numbers by insertion, equal keys in their order,
    then the [nan] rows. *)
Definition stable_sort_values : SortValues num :=
  {| sort_values := nan_last_sort;
     sort_values_perm := nan_last_sort_perm;
     sort_values_order := nan_last_sort_order |}.

End InsertionFacts.

Lemma exact_fge_total (x y : Q) :
  isnan (Float64 := Exact.exact) x = false ->
  isnan (Float64 := Exact.exact) y = false ->
  fge (Float64 := Exact.exact) x y = true \/
  fge (Float64 := Exact.exact) y x = true.
Proof.
  intros _ _. simpl. rewrite !Qle_bool_iff.
  destruct (Qlt_le_dec x y) as [H | H]; [right | left].
  - now apply Qlt_le_weak.
  - assumption.
Qed.

Lemma extended_fge_total (x y : Extended.xq) :
  isnan x = false -> isnan y = false ->
  fge x y = true \/ fge y x = true.
Proof.
  destruct x as [a | | |], y as [b | | |]; simpl; intros Hx Hy;
    try discriminate; auto.
  rewrite !Qle_bool_iff.
  destruct (Qlt_le_dec a b) as [H | H]; [right | left].
  - now apply Qlt_le_weak.
  - assumption.
Qed.

(** The implementation over the two sample arithmetics. *)
Definition stable_exact : SortValues Q := stable_sort_values exact_fge_total.

Definition stable_extended : SortValues Extended.xq :=
  stable_sort_values extended_fge_total.

(** ** Reading the fetched frame *)

Section Frames.

Context {num : Type} {F : Float64 num}.
Variable America_New_York : tzinfo.

(** [iloc[-1]] succeeds exactly on a non-empty frame, with its last
    row. *)
Lemma iloc_last_inr (rows : list (Bar num)) (b : Bar num) :
  iloc_last rows = inr b <-> exists front, rows = front ++ [b].
Proof.
  induction rows as [| x rest IH].
  - split; [discriminate |]. intros [[| ? ?] H]; discriminate.
  - destruct rest as [| y rest'].
    + simpl. split.
      * intros [= ->]. now exists [].
      * intros [[| z [| ? ?]] H]; try discriminate. now injection H as ->.
    + change (iloc_last (x :: y :: rest')) with (iloc_last (y :: rest')).
      rewrite IH. split.
      * intros [front ->]. now exists (x :: front).
      * intros [[| z front] H]; [discriminate |].
        injection H as -> H. now exists front.
Qed.

Lemma iloc_last_nonempty (x : Bar num) (rows : list (Bar num)) :
  exists b, iloc_last (x :: rows) = inr b.
Proof.
  revert x. induction rows as [| y rest IH]; intros x.
  - now exists x.
  - destruct (IH y) as [b Hb]. exists b. exact Hb.
Qed.

(** What a successful reading of the frame has read. *)
Lemma closes_inr (ticker : Ticker num) (d p : Z) (ct : string)
    (prices : num * num) :
  closes America_New_York ticker d p ct = inr prices ->
  exists tz target more front last_bar,
    index_tz ticker = Some tz
    /\ at_time {| index_tz := Some America_New_York;
                  bars := bars (on_date ticker d) |} ct = target :: more
    /\ bars (on_date ticker p) = front ++ [last_bar]
    /\ prices = (Close target, Close last_bar).
Proof.
  unfold closes, tz_convert, bind. simpl.
  destruct (index_tz ticker) as [tz |] eqn:Htz; [| discriminate].
  unfold ret.
  destruct (at_time _ ct) as [| target more] eqn:Htime; [discriminate |].
  simpl.
  destruct (iloc_last _) as [e | last_bar] eqn:Hlast; [discriminate |].
  intros [= <-].
  apply iloc_last_inr in Hlast. destruct Hlast as [front Hfront].
  exists tz, target, more, front, last_bar. simpl in Hfront. auto.
Qed.

(** Conversely, a tz-aware frame with a bar at the target time and a bar
    on the comparison day is read without error. *)
Lemma closes_defined (ticker : Ticker num) (d p : Z) (ct : string)
    tz target more last_bar :
  index_tz ticker = Some tz ->
  at_time {| index_tz := Some America_New_York;
             bars := bars (on_date ticker d) |} ct = target :: more ->
  iloc_last (bars (on_date ticker p)) = inr last_bar ->
  closes America_New_York ticker d p ct
  = inr (Close target, Close last_bar).
Proof.
  intros Htz Htime Hlast.
  unfold closes, tz_convert. cbn [on_date index_tz bars] in *.
  rewrite Htz in *. cbn [bind ret].
  rewrite Htime. cbn [values_0 bind ret].
  rewrite Hlast. reflexivity.
Qed.

End Frames.

(** ** Filters and the first and last element with a property *)

Section Filters.

Variable A : Type.
Variable f : A -> bool.

Lemma filter_cons_first (l : list A) (x : A) (more : list A) :
  filter f l = x :: more ->
  exists before after,
    l = before ++ x :: after
    /\ f x = true
    /\ Forall (fun y => f y = false) before
    /\ more = filter f after.
Proof.
  induction l as [| y l IH]; simpl; [discriminate |].
  destruct (f y) eqn:E.
  - intros [= -> <-]. exists [], l. repeat split; auto.
  - intros H. destruct (IH H) as (before & after & -> & Hx & Hb & Hm).
    exists (y :: before), after. repeat split; auto.
Qed.

Lemma filter_first_cons (before after : list A) (x : A) :
  f x = true ->
  Forall (fun y => f y = false) before ->
  filter f (before ++ x :: after) = x :: filter f after.
Proof.
  intros Hx Hb. induction Hb as [| y before Hy Hb IH]; simpl.
  - now rewrite Hx.
  - now rewrite Hy.
Qed.

Lemma filter_none (l : list A) :
  Forall (fun y => f y = false) l -> filter f l = [].
Proof.
  induction 1 as [| y l Hy Hl IH]; simpl; [reflexivity |].
  now rewrite Hy.
Qed.

Lemma filter_snoc_last (l : list A) (front : list A) (x : A) :
  filter f l = front ++ [x] ->
  exists before after,
    l = before ++ x :: after
    /\ f x = true
    /\ Forall (fun y => f y = false) after.
Proof.
  revert front. induction l as [| y l IH]; intros front; simpl.
  - destruct front; discriminate.
  - destruct (f y) eqn:E.
    + destruct front as [| z front]; simpl.
      * intros [= -> Hl]. exists [], l. repeat split; auto.
        apply Forall_forall. intros w Hw.
        destruct (f w) eqn:Ew; [| reflexivity].
        assert (Hin : In w (filter f l)) by (apply filter_In; auto).
        rewrite Hl in Hin. contradiction.
      * intros [= -> Hl].
        destruct (IH front Hl) as (before & after & -> & Hx & Ha).
        exists (z :: before), after. repeat split; auto.
    + intros Hl.
      destruct (IH front Hl) as (before & after & -> & Hx & Ha).
      exists (y :: before), after. repeat split; auto.
Qed.

Lemma filter_last_snoc (before after : list A) (x : A) :
  f x = true ->
  Forall (fun y => f y = false) after ->
  filter f (before ++ x :: after) = filter f before ++ [x].
Proof.
  intros Hx Ha. rewrite filter_app. simpl. rewrite Hx.
  now rewrite (filter_none after Ha).
Qed.

Lemma filter_exists (l : list A) :
  (exists x, In x l /\ f x = true) -> filter f l <> [].
Proof.
  intros (x & Hin & Hx) Hnil.
  assert (H : In x (filter f l)) by (apply filter_In; auto).
  rewrite Hnil in H. contradiction.
Qed.

End Filters.

Lemma filter_filter_andb (A : Type) (f g : A -> bool) (l : list A) :
  filter g (filter f l) = filter (fun x => f x && g x) l.
Proof.
  induction l as [| x l IH]; simpl; [reflexivity |].
  destruct (f x); simpl; [| exact IH].
  destruct (g x); now rewrite IH.
Qed.

(** ** What the calculator reads, in terms of the bars *)

Section Reading.

Context {num : Type} {F : Float64 num}.
Variable America_New_York : tzinfo.
Variable history : string -> Z -> Z -> result (Ticker num).

Local Abbreviation ny_time := (new_york_time America_New_York).

(** The two tests of lines 63 to 68 on a bar. *)
Local Abbreviation on_target ticker d ct :=
  (fun b : Bar num =>
     (index_date ticker b =? d) && String.eqb (ny_time b) ct).

Local Abbreviation on_day ticker p :=
  (fun b : Bar num => index_date ticker b =? p).

Lemma on_target_true (ticker : Ticker num) d ct b :
  on_target ticker d ct b = true
  <-> index_date ticker b = d /\ ny_time b = ct.
Proof.
  cbv beta. rewrite andb_true_iff, Z.eqb_eq, String.eqb_eq. reflexivity.
Qed.

Lemma on_target_false (ticker : Ticker num) d ct b :
  on_target ticker d ct b = false
  <-> ~ (index_date ticker b = d /\ ny_time b = ct).
Proof.
  rewrite <- on_target_true. now destruct (on_target ticker d ct b).
Qed.

Lemma on_day_false (ticker : Ticker num) p b :
  on_day ticker p b = false <-> index_date ticker b <> p.
Proof. cbv beta. apply Z.eqb_neq. Qed.

(** The bars at the target time, as line 65 filters them. *)
Lemma at_time_on_date (ticker : Ticker num) d ct :
  at_time {| index_tz := Some America_New_York;
             bars := bars (on_date ticker d) |} ct
  = filter (on_target ticker d ct) (bars ticker).
Proof.
  unfold at_time, on_date. cbn [index_tz bars].
  apply filter_filter_andb.
Qed.

(** The reading of a frame succeeds exactly with the close of the first
    bar, in the order of the frame, that stands under the target date and
    shows the target time, and the close of the last bar that stands under
    the comparison day. *)
Lemma closes_spec (ticker : Ticker num) d p ct (t c : num) :
  closes America_New_York ticker d p ct = inr (t, c) <->
  exists tz target last_bar,
    index_tz ticker = Some tz
    /\ first_such (fun b => index_date ticker b = d /\ ny_time b = ct)
                  target (bars ticker)
    /\ last_such (fun b => index_date ticker b = p) last_bar (bars ticker)
    /\ t = Close target /\ c = Close last_bar.
Proof.
  split.
  - intros Hcloses. apply closes_inr in Hcloses.
    destruct Hcloses as (tz & target & more & front & last_bar
                         & Htz & Htime & Hfront & Heq).
    injection Heq as -> ->.
    rewrite at_time_on_date in Htime.
    apply filter_cons_first in Htime.
    destruct Htime as (before & after & Hl & Hx & Hb & _).
    unfold on_date in Hfront. cbn [bars] in Hfront.
    apply filter_snoc_last in Hfront.
    destruct Hfront as (before' & after' & Hl' & Hx' & Ha').
    exists tz, target, last_bar. repeat split; try assumption.
    + exists before, after. split; [assumption |].
      split; [now apply on_target_true |].
      eapply Forall_impl; [| exact Hb].
      intros b Hf. now apply on_target_false.
    + exists before', after'. split; [assumption |].
      split; [now apply Z.eqb_eq in Hx' |].
      eapply Forall_impl; [| exact Ha'].
      intros b Hf. now apply on_day_false.
  - intros (tz & target & last_bar & Htz
            & (before & after & Hl & Hx & Hb)
            & (before' & after' & Hl' & Hx' & Ha') & -> & ->).
    apply (closes_defined America_New_York ticker d p ct tz target
             (filter (on_target ticker d ct) after)); [assumption | |].
    + rewrite at_time_on_date, Hl. apply filter_first_cons.
      * now apply on_target_true.
      * eapply Forall_impl; [| exact Hb].
        intros b Hf. now apply on_target_false.
    + apply iloc_last_inr. unfold on_date. cbn [bars].
      exists (filter (on_day ticker p) before').
      rewrite Hl'. apply filter_last_snoc.
      * now apply Z.eqb_eq.
      * eapply Forall_impl; [| exact Ha'].
        intros b Hf. now apply on_day_false.
Qed.

(** What a symbol goes through to get its row. *)
Lemma process_symbol_spec symbol d p end_ ct row :
  Calendar.timedelta_add d 1 = inr end_ ->
  process_symbol America_New_York history symbol d p ct = inr row <->
  exists ticker tz target last_bar,
    history symbol p end_ = inr ticker
    /\ index_tz ticker = Some tz
    /\ first_such (fun b => index_date ticker b = d /\ ny_time b = ct)
                  target (bars ticker)
    /\ last_such (fun b => index_date ticker b = p) last_bar (bars ticker)
    /\ row = record symbol (Close target) (Close last_bar).
Proof.
  intros Hend. split.
  - intros Hproc. apply process_symbol_inr in Hproc.
    destruct Hproc as (end' & ticker & [t c] & Hend' & Hhist & Hcloses & ->).
    rewrite Hend in Hend'. injection Hend' as <-.
    apply closes_spec in Hcloses.
    destruct Hcloses as (tz & target & last_bar & Htz & Hf & Hl & -> & ->).
    exists ticker, tz, target, last_bar. auto.
  - intros (ticker & tz & target & last_bar & Hhist & Htz & Hf & Hl & ->).
    assert (Hcloses : closes America_New_York ticker d p ct
                      = inr (Close target, Close last_bar)).
    { apply closes_spec. exists tz, target, last_bar. auto. }
    unfold process_symbol, fetch. rewrite Hend. cbn [fst].
    rewrite Hhist. cbn [bind]. unfold returns_of.
    rewrite Hcloses. reflexivity.
Qed.

(** Among the bars that have a property there is a first and a last. *)
Lemma first_such_exists (test : Bar num -> bool) (rows : list (Bar num)) :
  (exists b, In b rows /\ test b = true) ->
  exists x, first_such (fun b => test b = true) x rows.
Proof.
  intros Hex. pose proof (filter_exists _ test rows Hex) as Hne.
  destruct (filter test rows) as [| x more] eqn:E; [contradiction |].
  apply filter_cons_first in E.
  destruct E as (before & after & -> & Hx & Hb & _).
  exists x, before, after. repeat split; auto.
  eapply Forall_impl; [| exact Hb]. intros b Hf. now rewrite Hf.
Qed.

Lemma last_such_exists (test : Bar num -> bool) (rows : list (Bar num)) :
  (exists b, In b rows /\ test b = true) ->
  exists x, last_such (fun b => test b = true) x rows.
Proof.
  intros Hex. pose proof (filter_exists _ test rows Hex) as Hne.
  destruct (rev (filter test rows)) as [| x front] eqn:E.
  - apply (f_equal (@rev _)) in E. rewrite rev_involutive in E.
    contradiction.
  - apply (f_equal (@rev _)) in E. rewrite rev_involutive in E.
    simpl in E. apply filter_snoc_last in E.
    destruct E as (before & after & -> & Hx & Ha).
    exists x, before, after. repeat split; auto.
    eapply Forall_impl; [| exact Ha]. intros b Hf. now rewrite Hf.
Qed.

(** A symbol succeeds exactly when the provider answers with a readable
    frame. *)
Lemma succeeds_iff_readable symbol d p end_ ct :
  Calendar.timedelta_add d 1 = inr end_ ->
  succeeds America_New_York history symbol d p ct = true <->
  exists ticker,
    history symbol p end_ = inr ticker
    /\ readable America_New_York ticker d p ct.
Proof.
  intros Hend. unfold succeeds. split.
  - destruct (process_symbol _ _ symbol d p ct) as [e | row] eqn:E;
      [discriminate |].
    intros _. apply (process_symbol_spec symbol d p end_ ct row Hend) in E.
    destruct E as (ticker & tz & target & last_bar & Hhist & Htz
                   & (b1 & a1 & Hl1 & [Hd1 Ht1] & _)
                   & (b2 & a2 & Hl2 & Hd2 & _) & _).
    exists ticker. split; [assumption |]. repeat split.
    + rewrite Htz. discriminate.
    + exists target. split; [| auto].
      rewrite Hl1. apply in_or_app. right. now left.
    + exists last_bar. split; [| auto].
      rewrite Hl2. apply in_or_app. right. now left.
  - intros (ticker & Hhist & Htz & (b1 & Hin1 & Hd1 & Ht1)
            & (b2 & Hin2 & Hd2)).
    destruct (index_tz ticker) as [tz |] eqn:Etz; [| contradiction].
    destruct (first_such_exists (on_target ticker d ct) (bars ticker))
      as (target & before & after & Hl & Hx & Hb).
    { exists b1. split; [assumption |]. now apply on_target_true. }
    destruct (last_such_exists (on_day ticker p) (bars ticker))
      as (last_bar & before' & after' & Hl' & Hx' & Ha').
    { exists b2. split; [assumption |]. now apply Z.eqb_eq. }
    assert (Hproc : process_symbol America_New_York history symbol d p ct
                    = inr (record symbol (Close target) (Close last_bar))).
    { apply (process_symbol_spec symbol d p end_ ct _ Hend).
      exists ticker, tz, target, last_bar. repeat split; try assumption.
      - exists before, after. split; [assumption |].
        split; [now apply on_target_true |].
        eapply Forall_impl; [| exact Hb].
        intros b Hf. apply on_target_false.
        apply not_true_is_false. exact Hf.
      - exists before', after'. split; [assumption |].
        split; [now apply Z.eqb_eq in Hx' |].
        eapply Forall_impl; [| exact Ha'].
        intros b Hf. apply on_day_false.
        apply not_true_is_false. exact Hf. }
    now rewrite Hproc.
Qed.

End Reading.

(** ** The requests of a run *)

Section Requests.

Context {num : Type} {F : Float64 num} {SV : SortValues num}.
Variable America_New_York : tzinfo.
Variable history : string -> Z -> Z -> result (Ticker num).

Lemma for_each_trace_keeps symbols :
  forall total idx target_date prev_day ct st ev,
    In ev (trace st) ->
    In ev (trace (for_each America_New_York history total idx symbols
                           target_date prev_day ct st)).
Proof.
  induction symbols as [| symbol rest IH]; intros; simpl.
  - assumption.
  - apply IH. rewrite turn_trace. apply in_or_app. now left.
Qed.

(** Every symbol of the list is asked for, from [prev_day] to the day
    after [target_date]. *)
Lemma for_each_asks symbols :
  forall total idx target_date prev_day ct st symbol end_,
    In symbol symbols ->
    Calendar.timedelta_add target_date 1 = inr end_ ->
    In (History symbol prev_day end_)
       (trace (for_each America_New_York history total idx symbols
                        target_date prev_day ct st)).
Proof.
  induction symbols as [| s rest IH]; intros * Hin Hend; simpl.
  - contradiction.
  - destruct Hin as [-> | Hin].
    + apply for_each_trace_keeps. rewrite turn_trace.
      apply in_or_app. right.
      unfold try_symbol, fetch. rewrite Hend. simpl. auto.
    + now apply IH.
Qed.

Lemma calculate_asks stock_list cd ct target_date prev_day symbol end_ :
  Calendar.strptime cd = inr target_date ->
  Calendar.weekday target_date < 5 ->
  comparison_day target_date = inr prev_day ->
  In symbol stock_list ->
  Calendar.timedelta_add target_date 1 = inr end_ ->
  In (History symbol prev_day end_)
     (snd (calculate_stock_returns America_New_York history
                                   stock_list cd ct)).
Proof.
  intros Hdate Hweek Hprev Hin Hend. unfold calculate_stock_returns.
  rewrite Hdate.
  destruct (Z.geb_spec (Calendar.weekday target_date) 5) as [Hge | _];
    [lia |].
  rewrite Hprev.
  set (st := for_each _ _ _ _ _ _ _ _ _).
  assert (H : In (History symbol prev_day end_) (trace st))
    by (now apply for_each_asks).
  destruct (results st); simpl.
  - apply in_or_app. left. apply in_or_app. now left.
  - apply in_or_app. now left.
Qed.

(** The comparison day of a weekday that has one. *)
Lemma comparison_day_defined (cd : Calendar.mdy) (d : Z) :
  Calendar.strptime cd = inr d -> d <> 1 ->
  comparison_day d
  = inr (if Calendar.weekday d =? 0 then d - 3 else d - 1).
Proof.
  intros Hdate Hfirst.
  apply CalendarFacts.strptime_range in Hdate.
  unfold comparison_day, Calendar.timedelta_sub, Calendar.timedelta_add.
  unfold Calendar.MAXORDINAL in *.
  destruct (Z.eqb_spec (Calendar.weekday d) 0) as [Hmon | _].
  - assert (8 <= d) by (apply CalendarFacts.monday_not_first; lia).
    destruct (_ && _) eqn:E; [unfold ret; f_equal; lia |].
    apply andb_false_iff in E. rewrite !Z.leb_gt in E. lia.
  - destruct (_ && _) eqn:E; [unfold ret; f_equal; lia |].
    apply andb_false_iff in E. rewrite !Z.leb_gt in E. lia.
Qed.

(** The first day of the calendar is a Monday; it has no comparison day
    and the calculator raises on it. *)
Lemma first_day_rejected stock_list ct :
  calculate_stock_returns America_New_York history stock_list
                          (Calendar.MDY 1 1 1) ct
  = (inl OverflowError, []).
Proof. reflexivity. Qed.

(** C1.  For every target date that is not on a weekend and that the
    calculator accepts (every weekday but 0001-01-01, which has no earlier
    day to compare with), the comparison day is the target date minus one
    calendar day, except on a Monday, when it is the target date minus
    three calendar days; the run does not raise and every request to the
    provider starts at that day. *)
Theorem comparison_day_is_previous_weekday
    (stock_list : list string) (cd : Calendar.mdy) (ct : string) (d : Z) :
  Calendar.strptime cd = inr d ->
  Calendar.weekday d < 5 ->
  d <> 1 ->
  let run := calculate_stock_returns America_New_York history
                                     stock_list cd ct in
  let p := if Calendar.weekday d =? 0 then d - 3 else d - 1 in
  comparison_day d = inr p
  /\ (exists df, fst run = inr df)
  /\ (forall symbol start end_,
        In (History symbol start end_) (snd run) -> start = p)
  /\ (forall symbol, In symbol stock_list -> d < Calendar.MAXORDINAL ->
        In (History symbol p (d + 1)) (snd run)).
Proof.
  intros Hdate Hweek Hfirst run p.
  pose proof (comparison_day_defined cd d Hdate Hfirst) as Hprev.
  fold p in Hprev. split; [exact Hprev |].
  split; [| split].
  - destruct (calculate_table America_New_York history stock_list cd ct
                d p Hdate Hweek Hprev) as (df & Hdf & _).
    now exists df.
  - intros symbol start end_ Hin.
    now destruct (calculate_requests America_New_York history stock_list
                    cd ct d p symbol start end_ Hdate Hweek Hprev Hin).
  - intros symbol Hin Hmax.
    apply (calculate_asks stock_list cd ct d p symbol (d + 1)
             Hdate Hweek Hprev Hin).
    pose proof (CalendarFacts.strptime_range cd d Hdate) as Hrange.
    unfold Calendar.timedelta_add.
    destruct (_ && _) eqn:E; [reflexivity |]. unfold Calendar.MAXORDINAL in *.
    apply andb_false_iff in E. rewrite !Z.leb_gt in E. lia.
Qed.

(** C2.  When the target date falls on a Saturday or a Sunday the
    calculator returns the empty table, and its only event is the warning:
    the price history provider is not asked for any symbol. *)
Theorem weekend_returns_empty_without_request
    (stock_list : list string) (cd : Calendar.mdy) (ct : string) (d : Z) :
  Calendar.strptime cd = inr d ->
  5 <= Calendar.weekday d ->
  let run := calculate_stock_returns America_New_York history
                                     stock_list cd ct in
  fst run = inr empty_frame
  /\ snd run = [Warning weekend_msg]
  /\ ~ asked (snd run).
Proof.
  intros Hdate Hweek run. subst run. unfold calculate_stock_returns.
  rewrite Hdate.
  destruct (Z.geb_spec (Calendar.weekday d) 5) as [_ | Hlt]; [| lia].
  simpl. repeat split.
  intros (symbol & start & end_ & [H | []]). discriminate.
Qed.

End Requests.

(** ** Facts on lists used below *)

Section ListFacts.

Variable A : Type.

(** In a strongly sorted list every element before another is related to
    it. *)
Lemma strongly_sorted_before (R : A -> A -> Prop) (l1 l2 : list A) (x : A) :
  StronglySorted R (l1 ++ x :: l2) -> Forall (fun y => R y x) l1.
Proof.
  induction l1 as [| y l1 IH]; simpl; intros Hs; [constructor |].
  inversion Hs as [| ? ? Hs' Hall]; subst. constructor.
  - rewrite Forall_forall in Hall. apply Hall.
    apply in_or_app. right. now left.
  - now apply IH.
Qed.

Lemma first_such_ext (P Q : A -> Prop) (x : A) (l : list A) :
  (forall y, P y <-> Q y) -> first_such P x l -> first_such Q x l.
Proof.
  intros Hext (before & after & Hl & Hx & Hb).
  exists before, after. split; [assumption |]. split; [now apply Hext |].
  eapply Forall_impl; [| exact Hb]. intros y Hy HQ. now apply Hy, Hext.
Qed.

Lemma last_such_ext (P Q : A -> Prop) (x : A) (l : list A) :
  (forall y, P y <-> Q y) -> last_such P x l -> last_such Q x l.
Proof.
  intros Hext (before & after & Hl & Hx & Ha).
  exists before, after. split; [assumption |]. split; [now apply Hext |].
  eapply Forall_impl; [| exact Ha]. intros y Hy HQ. now apply Hy, Hext.
Qed.

End ListFacts.

Lemma count_occ_filter (keep : string -> bool) (l : list string) (x : string) :
  count_occ string_dec (filter keep l) x
  = if keep x then count_occ string_dec l x else 0%nat.
Proof.
  induction l as [| y l IH]; simpl.
  - now destruct (keep x).
  - destruct (keep y) eqn:Ey; simpl;
      destruct (string_dec y x) as [-> | Hne]; rewrite IH.
    + now rewrite Ey.
    + reflexivity.
    + now rewrite Ey.
    + reflexivity.
Qed.

(** ** The result table *)

Section Table.

Context {num : Type} {F : Float64 num} {SV : SortValues num}.
Variable America_New_York : tzinfo.
Variable history : string -> Z -> Z -> result (Ticker num).

Local Abbreviation calculate :=
  (calculate_stock_returns America_New_York history).
Local Abbreviation ny_time := (new_york_time America_New_York).
Local Abbreviation ny_date := (eastern_date America_New_York).
Local Abbreviation ok := (succeeds America_New_York history).

(** Without [nan] rows the order of [sort_values] is descending. *)
Lemma numbers_then_nans_descending (df : DataFrame num) :
  numbers_then_nans df ->
  Forall (fun row => isnan (Return_pct row) = false) df ->
  descending df.
Proof.
  intros (numbers & nans & -> & _ & Hsorted & Hnans) Hall.
  destruct nans as [| x nans]; [now rewrite app_nil_r |].
  exfalso. rewrite Forall_forall in Hall.
  assert (Hx : isnan (Return_pct x) = false)
    by (apply Hall, in_or_app; right; now left).
  inversion Hnans as [| ? ? Hn _]; subst. unfold nan_row in Hn. congruence.
Qed.

(** The symbols of the table are the succeeding entries of the list. *)
Lemma table_symbols stock_list cd ct d p :
  Calendar.strptime cd = inr d ->
  Calendar.weekday d < 5 ->
  comparison_day d = inr p ->
  exists df,
    fst (calculate stock_list cd ct) = inr df
    /\ Permutation df (successes America_New_York history stock_list d p ct)
    /\ Permutation (map Symbol df)
                   (filter (fun symbol => ok symbol d p ct) stock_list).
Proof.
  intros Hdate Hweek Hprev.
  destruct (calculate_table America_New_York history stock_list cd ct d p
              Hdate Hweek Hprev) as (df & Hdf & Hperm & _).
  exists df. split; [assumption |]. split; [assumption |].
  rewrite <- successes_symbols. now apply Permutation_map.
Qed.


(** C5, as the code has it.  Every row of the returned table belongs to
    a symbol of the input list whose frame was fetched for the range from
    the comparison day to the day after the target date; its three numbers
    are [round(., 2)] of the closes of two bars of that frame and of
    [((target_price - prev_close) / prev_close) * 100] computed from the
    two closes.  When the frame is indexed in New York time, the target
    price is the close of the first bar, in the order of the frame, whose
    date is the target date and whose time of day is the target time, and
    the previous close is the close of the last bar, in the order of the
    frame, whose date is the comparison day: the latest such bar when the
    frame is in chronological order. *)
Theorem row_is_rounded_return
    (stock_list : list string) (cd : Calendar.mdy) (ct : string)
    (df : DataFrame num) (row : ReturnRecord num) :
  fst (calculate stock_list cd ct) = inr df ->
  In row df ->
  exists d p ticker target last_bar,
    Calendar.strptime cd = inr d
    /\ comparison_day d = inr p
    /\ In (Symbol row) stock_list
    /\ history (Symbol row) p (d + 1) = inr ticker
    /\ In target (bars ticker)
    /\ In last_bar (bars ticker)
    /\ Previous_Close row = round2 (Close last_bar)
    /\ Target_Price row = round2 (Close target)
    /\ Return_pct row
       = round2 (fmul (fdiv (fsub (Close target) (Close last_bar))
                            (Close last_bar))
                      (of_int 100))
    /\ (index_tz ticker = Some America_New_York ->
        first_such (fun b => ny_date b = d /\ ny_time b = ct)
                   target (bars ticker)
        /\ last_such (fun b => ny_date b = p) last_bar (bars ticker)
        /\ (chronological (bars ticker) ->
            forall b, In b (bars ticker) -> ny_date b = p ->
                      ts b <= ts last_bar)).
Proof.
  intros Hrun Hrow.
  destruct (calculate_inr America_New_York history stock_list cd ct df Hrun)
    as (d & Hdate & [[_ ->] | (_ & p & Hprev & Hperm & _)]);
    [contradiction |].
  apply (Permutation_in _ Hperm) in Hrow.
  apply in_successes in Hrow. destruct Hrow as (symbol & Hin & Hproc).
  pose proof Hproc as Hproc'. apply process_symbol_inr in Hproc'.
  destruct Hproc' as (end_ & _ & _ & Hend & _).
  assert (end_ = d + 1) as ->.
  { unfold Calendar.timedelta_add in Hend.
    destruct (_ && _); [now injection Hend | discriminate]. }
  apply (process_symbol_spec America_New_York history symbol d p (d + 1)
           ct row Hend) in Hproc.
  destruct Hproc as (ticker & tz & target & last_bar & Hhist & Htz
                     & Hfirst & Hlast & ->).
  exists d, p, ticker, target, last_bar.
  cbn [record Symbol Previous_Close Target_Price Return_pct].
  assert (Hint : In target (bars ticker)).
  { destruct Hfirst as (b1 & a1 & -> & _).
    apply in_or_app. right. now left. }
  assert (Hinl : In last_bar (bars ticker)).
  { destruct Hlast as (b2 & a2 & -> & _).
    apply in_or_app. right. now left. }
  repeat (split; [first [assumption | reflexivity] |]).
  intros Hny.
  assert (Hdates : forall b, index_date ticker b = ny_date b).
  { intros b. unfold index_date, eastern_date. now rewrite Hny. }
  assert (Hlast' : last_such (fun b => ny_date b = p) last_bar (bars ticker)).
  { apply (last_such_ext _ (fun b => index_date ticker b = p));
      [| exact Hlast].
    intros b. now rewrite Hdates. }
  split; [| split; [exact Hlast' |]].
  - apply (first_such_ext _ (fun b => index_date ticker b = d
                                      /\ ny_time b = ct)); [| exact Hfirst].
    intros b. now rewrite Hdates.
  - intros Hchron b Hb Hdate_b.
    destruct Hlast' as (before & after & Hl & _ & Hafter).
    rewrite Hl in Hb, Hchron. apply in_app_or in Hb.
    destruct Hb as [Hb | [<- | Hb]].
    + pose proof (strongly_sorted_before _ _ _ _ _ Hchron) as Hall.
      rewrite Forall_forall in Hall. now apply Hall.
    + lia.
    + rewrite Forall_forall in Hafter. now destruct (Hafter b Hb).
Qed.

(** C6, as the code has it.  On a weekday the calculator does not raise,
    whatever happens to single symbols.  A symbol has no row when the
    provider raises for it, when its frame has a naive index, when no bar
    of its frame stands under the target date and shows the target time,
    or when no bar of its frame stands under the comparison day; a symbol
    of the list whose frame has such bars has one row for each of its
    entries, whatever happens to the other symbols. *)
Theorem failing_symbols_are_skipped
    (stock_list : list string) (cd : Calendar.mdy) (ct : string)
    (d p end_ : Z) :
  Calendar.strptime cd = inr d ->
  Calendar.weekday d < 5 ->
  comparison_day d = inr p ->
  Calendar.timedelta_add d 1 = inr end_ ->
  exists df,
    fst (calculate stock_list cd ct) = inr df
    /\ (forall symbol e,
          history symbol p end_ = inl e -> ~ In symbol (map Symbol df))
    /\ (forall symbol ticker,
          history symbol p end_ = inr ticker ->
          index_tz ticker = None
          \/ (forall b, In b (bars ticker) ->
                        ~ (index_date ticker b = d /\ ny_time b = ct))
          \/ (forall b, In b (bars ticker) -> index_date ticker b <> p) ->
          ~ In symbol (map Symbol df))
    /\ (forall symbol ticker,
          In symbol stock_list ->
          history symbol p end_ = inr ticker ->
          readable America_New_York ticker d p ct ->
          In symbol (map Symbol df)
          /\ count_occ string_dec (map Symbol df) symbol
             = count_occ string_dec stock_list symbol).
Proof.
  intros Hdate Hweek Hprev Hend.
  destruct (table_symbols stock_list cd ct d p Hdate Hweek Hprev)
    as (df & Hdf & _ & Hsyms).
  exists df. split; [assumption |].
  assert (Hrow : forall symbol, In symbol (map Symbol df) ->
            exists ticker, history symbol p end_ = inr ticker
                           /\ readable America_New_York ticker d p ct).
  { intros symbol Hin. apply (Permutation_in _ Hsyms) in Hin.
    apply filter_In in Hin. destruct Hin as [_ Hok].
    now apply (succeeds_iff_readable America_New_York history symbol
                 d p end_ ct Hend). }
  split; [| split].
  - intros symbol e Hfail Hin.
    destruct (Hrow symbol Hin) as (ticker & Hhist & _). congruence.
  - intros symbol ticker Hhist Hbad Hin.
    destruct (Hrow symbol Hin) as (ticker' & Hhist' & Htz & Ht & Hp).
    rewrite Hhist in Hhist'. injection Hhist' as <-.
    destruct Hbad as [Hnaive | [Hnone | Hnone]].
    + contradiction.
    + destruct Ht as (b & Hb & Hd & Hc). now apply (Hnone b Hb).
    + destruct Hp as (b & Hb & Hd). now apply (Hnone b Hb).
  - intros symbol ticker Hin Hhist Hread.
    assert (Hok : ok symbol d p ct = true).
    { apply (succeeds_iff_readable America_New_York history symbol
               d p end_ ct Hend). eauto. }
    split.
    + apply (Permutation_in _ (Permutation_sym Hsyms)).
      apply filter_In. auto.
    + rewrite (proj1 (Permutation_count_occ string_dec _ _) Hsyms).
      rewrite (count_occ_filter (fun s => ok s d p ct)). now rewrite Hok.
Qed.

(** C8.  The returned table has at most as many rows as the input list
    has symbols, and when no symbol is repeated in the input list no symbol
    is repeated in the table. *)
Theorem table_no_larger_than_input
    (stock_list : list string) (cd : Calendar.mdy) (ct : string)
    (df : DataFrame num) :
  fst (calculate stock_list cd ct) = inr df ->
  (List.length df <= List.length stock_list)%nat
  /\ (NoDup stock_list -> NoDup (map Symbol df)).
Proof.
  intros Hrun.
  destruct (calculate_inr America_New_York history stock_list cd ct df Hrun)
    as (d & _ & [[_ ->] | (_ & p & _ & Hperm & _)]).
  - split; [simpl; lia | constructor].
  - split.
    + rewrite (Permutation_length Hperm). apply successes_length.
    + intros Hnodup.
      apply (Permutation_NoDup
               (l := map Symbol (successes America_New_York history
                                           stock_list d p ct))).
      * apply Permutation_sym. now apply Permutation_map.
      * rewrite successes_symbols. now apply NoDup_filter.
Qed.


(** C10.  The order of the returned table is computed from the stored,
    rounded returns: each row's [Return (%)] is [round(., 2)] of the exact
    return of its symbol; the rows with a number for key descend along
    these rounded values and the [nan] rows follow; two rows whose exact
    returns round to the same value carry equal keys, so neither
    comparison between them tells them apart; and a provider whose frames
    give the same rounded rows gets the very same table, whatever the
    exact returns are. *)
Theorem order_is_on_rounded_returns
    (history' : string -> Z -> Z -> result (Ticker num))
    (stock_list : list string) (cd : Calendar.mdy) (ct : string)
    (d p : Z) (df : DataFrame num) :
  Calendar.strptime cd = inr d ->
  comparison_day d = inr p ->
  fst (calculate stock_list cd ct) = inr df ->
  (forall row, In row df ->
     exists x,
       exact_return America_New_York history (Symbol row) d p ct = inr x
       /\ Return_pct row = round2 x)
  /\ (exists numbers nans,
        df = numbers ++ nans
        /\ Forall (fun row => isnan (Return_pct row) = false) numbers
        /\ descending numbers
        /\ Forall (fun row => isnan (Return_pct row) = true) nans)
  /\ (forall a b xa xb,
        In a df -> In b df ->
        exact_return America_New_York history (Symbol a) d p ct = inr xa ->
        exact_return America_New_York history (Symbol b) d p ct = inr xb ->
        round2 xa = round2 xb ->
        Return_pct a = Return_pct b
        /\ fge (Return_pct a) (Return_pct b)
           = fge (Return_pct b) (Return_pct a))
  /\ (successes America_New_York history' stock_list d p ct
      = successes America_New_York history stock_list d p ct ->
      fst (calculate_stock_returns America_New_York history'
                                   stock_list cd ct)
      = inr df).
Proof.
  intros Hdate Hprev Hrun.
  assert (Hrows : forall row, In row df ->
            exists x,
              exact_return America_New_York history (Symbol row) d p ct
              = inr x
              /\ Return_pct row = round2 x).
  { intros row Hrow.
    destruct (calculate_inr America_New_York history stock_list cd ct df Hrun)
      as (d' & Hdate' & [[_ ->] | (_ & p' & Hprev' & Hperm & _)]);
      [contradiction |].
    rewrite Hdate in Hdate'. injection Hdate' as <-.
    rewrite Hprev in Hprev'. injection Hprev' as <-.
    apply (Permutation_in _ Hperm) in Hrow.
    apply in_successes in Hrow. destruct Hrow as (symbol & _ & Hproc).
    rewrite (process_symbol_Symbol _ _ _ _ _ _ _ Hproc).
    now apply process_symbol_exact. }
  split; [exact Hrows |]. split; [| split].
  - destruct (calculate_inr America_New_York history stock_list cd ct df Hrun)
      as (d' & _ & [[_ ->] | (_ & p' & _ & _ & Hsorted)]).
    + apply numbers_then_nans_nil.
    + exact Hsorted.
  - intros a b xa xb Ha Hb Hxa Hxb Heq.
    destruct (Hrows a Ha) as (xa' & Hxa' & Hka).
    destruct (Hrows b Hb) as (xb' & Hxb' & Hkb).
    rewrite Hxa in Hxa'. injection Hxa' as <-.
    rewrite Hxb in Hxb'. injection Hxb' as <-.
    assert (Hk : Return_pct a = Return_pct b) by congruence.
    split; [exact Hk |]. now rewrite Hk.
  - intros Hsame. rewrite <- Hrun.
    unfold calculate_stock_returns. rewrite Hdate.
    destruct (Calendar.weekday d >=? 5); [reflexivity |].
    rewrite Hprev. cbv zeta.
    rewrite !for_each_results. cbn [results app]. rewrite Hsame.
    destruct (successes America_New_York history stock_list d p ct);
      reflexivity.
Qed.

End Table.

(** ** The symbol list of [main] *)

Module TextFacts.

Import Text.

Lemma isspace_upper_char (c : ascii) : isspace (upper_char c) = isspace c.
Proof. destruct c as [[] [] [] [] [] [] [] []]; reflexivity. Qed.

Lemma upper_char_idem (c : ascii) : upper_char (upper_char c) = upper_char c.
Proof. destruct c as [[] [] [] [] [] [] [] []]; reflexivity. Qed.

Lemma upper_idem (s : string) : upper (upper s) = upper s.
Proof.
  induction s as [| c s IH]; simpl; [reflexivity |].
  now rewrite upper_char_idem, IH.
Qed.

Lemma truthy_upper (s : string) : truthy (upper s) = truthy s.
Proof. destruct s; reflexivity. Qed.

Lemma lstrip_upper (s : string) : lstrip (upper s) = upper (lstrip s).
Proof.
  induction s as [| c s IH]; simpl; [reflexivity |].
  rewrite isspace_upper_char. now destruct (isspace c).
Qed.

Lemma rstrip_upper (s : string) : rstrip (upper s) = upper (rstrip s).
Proof.
  induction s as [| c s IH]; simpl; [reflexivity |].
  rewrite IH, isspace_upper_char.
  destruct (rstrip s); simpl; [now destruct (isspace c) | reflexivity].
Qed.

Lemma strip_upper (s : string) : strip (upper s) = upper (strip s).
Proof. unfold strip. now rewrite lstrip_upper, rstrip_upper. Qed.

Lemma lstrip_starts_clean (s : string) : starts_clean (lstrip s).
Proof.
  induction s as [| c s IH]; simpl; [exact I |].
  destruct (isspace c) eqn:E; [exact IH | exact E].
Qed.

Lemma lstrip_clean (s : string) : starts_clean s -> lstrip s = s.
Proof. destruct s as [| c s]; simpl; [reflexivity |]. now intros ->. Qed.

Lemma rstrip_starts_clean (s : string) :
  starts_clean s -> starts_clean (rstrip s).
Proof.
  destruct s as [| c s]; simpl; [auto |]. intros Hc.
  destruct (rstrip s); simpl; [now rewrite Hc | exact Hc].
Qed.

Lemma rstrip_idem (s : string) : rstrip (rstrip s) = rstrip s.
Proof.
  induction s as [| c s IH]; simpl; [reflexivity |].
  destruct (rstrip s) as [| a r] eqn:E.
  - destruct (isspace c) eqn:Ec; simpl; [reflexivity | now rewrite Ec].
  - change (rstrip (String c (String a r)))
      with (match rstrip (String a r) with
            | EmptyString =>
                if isspace c then EmptyString else String c EmptyString
            | String _ _ as r' => String c r'
            end).
    now rewrite IH.
Qed.

Lemma strip_idem (s : string) : strip (strip s) = strip s.
Proof.
  unfold strip.
  rewrite (lstrip_clean (rstrip (lstrip s))).
  - apply rstrip_idem.
  - apply rstrip_starts_clean, lstrip_starts_clean.
Qed.

Lemma comprehension_map_filter (lines : list string) :
  comprehension lines
  = map (fun s => upper (strip s))
        (filter (fun s => truthy (strip s)) lines).
Proof.
  induction lines as [| s rest IH]; simpl; [reflexivity |].
  destruct (truthy (strip s)); simpl; now rewrite IH.
Qed.

Lemma split_lines_empty : split_lines EmptyString = [EmptyString].
Proof. reflexivity. Qed.

End TextFacts.

(** C7, as the code has it.  The symbol list handed to the calculator
    is made from the text by cutting it at line feeds, dropping the lines
    that are blank after trimming, and trimming and uppercasing the others,
    in the order of the text and one entry per non-blank line (a symbol
    written twice is listed twice); every entry is non-empty, trimmed and
    in upper case. *)
Theorem symbol_list_trimmed_uppercased (stock_input : string) :
  Text.stocks_list stock_input
  = map (fun s => Text.upper (Text.strip s))
        (filter (fun s => Text.truthy (Text.strip s))
                (Text.split_lines stock_input))
  /\ Forall (fun symbol =>
               Text.truthy symbol = true
               /\ Text.strip symbol = symbol
               /\ Text.upper symbol = symbol)
            (Text.stocks_list stock_input).
Proof.
  assert (Heq : Text.stocks_list stock_input
                = map (fun s => Text.upper (Text.strip s))
                      (filter (fun s => Text.truthy (Text.strip s))
                              (Text.split_lines stock_input))).
  { unfold Text.stocks_list. destruct stock_input as [| c s].
    - reflexivity.
    - cbn [Text.truthy]. apply TextFacts.comprehension_map_filter. }
  split; [exact Heq |].
  rewrite Heq. apply Forall_forall. intros symbol Hin.
  apply in_map_iff in Hin. destruct Hin as (line & <- & Hline).
  apply filter_In in Hline. destruct Hline as [_ Hline].
  repeat split.
  - now rewrite TextFacts.truthy_upper.
  - now rewrite TextFacts.strip_upper, TextFacts.strip_idem.
  - apply TextFacts.upper_idem.
Qed.

(** C7, as stated, fails: a symbol that the text repeats is handed to
    the calculator twice. *)
Lemma repeated_symbol_is_kept :
  Text.stocks_list (Sample.text_area ["AAPL"; "  aapl "; ""; "msft"])
  = ["AAPL"; "AAPL"; "MSFT"]
  /\ ~ NoDup (Text.stocks_list (Sample.text_area ["AAPL"; "  aapl "; ""; "msft"])).
Proof.
  split; [reflexivity |].
  intros H. vm_compute in H.
  inversion H as [| x l Hnotin _]; subst. apply Hnotin. now left.
Qed.

(** ** The partition of the bars *)

Section Partition.

Context {num : Type}.
Variable America_New_York : tzinfo.

(** Under an index that is already in New York time the code reads the
    frame as the specification words it. *)
Lemma closes_agree_on_eastern_index
    (ticker : Ticker num) (d p : Z) (ct : string) :
  index_tz ticker = Some America_New_York ->
  closes America_New_York ticker d p ct
  = closes_after_normalizing America_New_York ticker d p ct.
Proof.
  intros Htz.
  unfold closes, closes_after_normalizing, tz_convert, on_date, at_time, bind.
  cbn [index_tz bars]. rewrite Htz. reflexivity.
Qed.

End Partition.

(** C4 fails on the code.  The bars are cut into target set and
    previous set by the dates of the index as the provider delivers it; the
    conversion to New York time comes after the cut and reaches the target
    set only.  For a Tokyo listing on Wednesday 2024-12-18: asked for
    22:30, the code takes the bar of 12:30 Tokyo time, which in New York is
    a bar of the comparison day, where the partition by Eastern dates has
    no bar at 22:30; asked for 00:30, the two partitions disagree on the
    previous close. *)
Theorem tokyo_bars_cut_by_tokyo_dates :
  fst (calculate_stock_returns (SV := stable_exact) Sample.EST
         Sample.history ["7203.T"] Sample.wednesday "22:30")
  = inr [Sample.row "7203.T" 272000 275000 110]
  /\ closes Sample.EST Sample.toyota 739238 739237 "22:30"
     = inr (Exact.cents 275000, Exact.cents 272000)
  /\ closes_after_normalizing Sample.EST Sample.toyota 739238 739237 "22:30"
     = inl IndexError
  /\ closes Sample.EST Sample.toyota 739238 739237 "00:30"
     = inr (Exact.cents 276000, Exact.cents 272000)
  /\ closes_after_normalizing Sample.EST Sample.toyota 739238 739237 "00:30"
     = inr (Exact.cents 276000, Exact.cents 275000)
  /\ map (fun b => strftime_Ymd (wall (Some Sample.EST) (ts b)))
         (bars (on_date Sample.toyota 739238))
     = [739237; 739238].
Proof. repeat split; vm_compute; reflexivity. Qed.

(** ** Where the stated claims part from the code *)


(** This is so for every [sort_values], not for the sample one only. *)
Lemma nan_return_is_sorted_last_by_every_sort (SV : SortValues Extended.xq) :
  fst (calculate_stock_returns (SV := SV) Sample.EST
         Special.history ["GAP"; "AAPL"] Sample.wednesday "09:30")
  = inr [Special.row "AAPL" (Extended.cents 10000) (Extended.cents 10500)
                     (Extended.cents 500);
         Special.row "GAP" (Extended.cents 20000) Extended.NaN Extended.NaN].
Proof.
  set (A := Special.row "AAPL" (Extended.cents 10000) (Extended.cents 10500)
                        (Extended.cents 500)).
  set (G := Special.row "GAP" (Extended.cents 20000) Extended.NaN
                        Extended.NaN).
  assert (Hrun : fst (calculate_stock_returns (SV := SV) Sample.EST
                        Special.history ["GAP"; "AAPL"]
                        Sample.wednesday "09:30")
                 = inr (sort_values [G; A])) by reflexivity.
  rewrite Hrun. f_equal.
  pose proof (sort_values_perm [G; A]) as Hperm.
  pose proof (sort_values_order [G; A]) as Horder.
  apply Permutation_sym, Permutation_length_2_inv in Hperm.
  destruct Hperm as [Hbad | Hgood]; [| exact Hgood].
  exfalso. rewrite Hbad in Horder.
  destruct Horder as (numbers & nans & Heq & Hnum & _ & Hnan).
  destruct numbers as [| x numbers].
  - simpl in Heq. subst nans.
    inversion Hnan as [| ? ? _ Hrest]; subst.
    inversion Hrest as [| ? ? HA _]; subst. discriminate HA.
  - injection Heq as <- _.
    inversion Hnum as [| ? ? HG _]; subst. discriminate HG.
Qed.

(** C5, as stated, fails: the previous close is the close of the last
    bar of the comparison day in the order the provider delivered the bars,
    not of the latest one.  Here the 15:30 bar (100.00) is delivered before
    the 14:30 bar (99.50). *)
Lemma previous_close_is_last_delivered :
  fst (calculate_stock_returns (SV := stable_exact) Sample.EST
         Sample.history2 ["SHUF"] Sample.wednesday "09:30")
  = inr [Sample.row "SHUF" 9950 10500 553]
  /\ In (Sample.bar 2024 12 17 15 30 (-18000) 10000) (bars Sample.shuffled)
  /\ eastern_date Sample.EST (Sample.bar 2024 12 17 15 30 (-18000) 10000)
     = 739237
  /\ (forall b, In b (bars Sample.shuffled) ->
                eastern_date Sample.EST b = 739237 ->
                ts b <= ts (Sample.bar 2024 12 17 15 30 (-18000) 10000))
  /\ round2 (Close (Sample.bar 2024 12 17 15 30 (-18000) 10000))
     <> Previous_Close (Sample.row "SHUF" 9950 10500 553).
Proof.
  split; [vm_compute; reflexivity |].
  split; [now left |]. split; [vm_compute; reflexivity |]. split.
  - intros b [<- | [<- | [<- | []]]] Hdate; vm_compute; discriminate.
  - vm_compute. discriminate.
Qed.

(** C6, as stated, fails: an arithmetic error does not skip a symbol.
    Dividing by a previous close of zero raises nothing on [float64]; the
    symbol gets its row, with an infinite return. *)
Lemma zero_close_gives_a_row :
  closes Sample.EST Special.zero 739238 739237 "09:30"
  = inr (Extended.cents 10500, Extended.Finite 0)
  /\ fst (calculate_stock_returns (SV := stable_extended) Sample.EST
            Special.history ["ZERO"] Sample.wednesday "09:30")
     = inr [Special.row "ZERO" (Extended.Finite 0) (Extended.cents 10500)
                        Extended.PosInf].
Proof. split; vm_compute; reflexivity. Qed.

(** ** The theorems at work on the sample data *)

(** Monday 2024-12-16 is compared with Friday 2024-12-13. *)
Lemma comparison_day_of_a_monday :
  Calendar.strptime Sample.monday = inr 739236
  /\ comparison_day 739236 = inr 739233
  /\ (exists df, fst (calculate_stock_returns (SV := stable_exact)
                        Sample.EST Sample.history ["AAPL"]
                        Sample.monday "09:30") = inr df)
  /\ (forall symbol start end_,
        In (History symbol start end_)
           (snd (calculate_stock_returns (SV := stable_exact)
                   Sample.EST Sample.history ["AAPL"]
                   Sample.monday "09:30")) ->
        start = 739233)
  /\ (forall symbol, In symbol ["AAPL"] -> 739236 < Calendar.MAXORDINAL ->
        In (History symbol 739233 739237)
           (snd (calculate_stock_returns (SV := stable_exact)
                   Sample.EST Sample.history ["AAPL"]
                   Sample.monday "09:30"))).
Proof.
  split; [reflexivity |].
  apply (comparison_day_is_previous_weekday (SV := stable_exact)
           Sample.EST Sample.history ["AAPL"] Sample.monday "09:30" 739236).
  - reflexivity.
  - vm_compute. reflexivity.
  - discriminate.
Defined.

(** Saturday 2024-12-21: the empty table and no request. *)
Lemma saturday_run :
  Calendar.strptime Sample.saturday = inr 739241
  /\ 5 <= Calendar.weekday 739241
  /\ fst (calculate_stock_returns (SV := stable_exact) Sample.EST
            Sample.history ["AAPL"] Sample.saturday "09:30")
     = inr empty_frame
  /\ snd (calculate_stock_returns (SV := stable_exact) Sample.EST
            Sample.history ["AAPL"] Sample.saturday "09:30")
     = [Warning weekend_msg]
  /\ ~ asked (snd (calculate_stock_returns (SV := stable_exact) Sample.EST
                     Sample.history ["AAPL"] Sample.saturday "09:30")).
Proof.
  split; [reflexivity |]. split; [vm_compute; discriminate |].
  apply (weekend_returns_empty_without_request (SV := stable_exact)
           Sample.EST Sample.history ["AAPL"] Sample.saturday "09:30" 739241).
  - reflexivity.
  - vm_compute. discriminate.
Defined.


(** The row of ["AAPL"] at 10:30: closes 100.00 and 106.00, return
    6.00; ["TSLA"] has no bar at that time. *)
Lemma aapl_row_fields :
  exists d p ticker target last_bar,
    Calendar.strptime Sample.wednesday = inr d
    /\ comparison_day d = inr p
    /\ In (Symbol (Sample.row "AAPL" 10000 10600 600)) ["TSLA"; "AAPL"]
    /\ Sample.history (Symbol (Sample.row "AAPL" 10000 10600 600)) p (d + 1)
       = inr ticker
    /\ In target (bars ticker)
    /\ In last_bar (bars ticker)
    /\ Previous_Close (Sample.row "AAPL" 10000 10600 600)
       = round2 (Close last_bar)
    /\ Target_Price (Sample.row "AAPL" 10000 10600 600)
       = round2 (Close target)
    /\ Return_pct (Sample.row "AAPL" 10000 10600 600)
       = round2 (fmul (fdiv (fsub (Close target) (Close last_bar))
                            (Close last_bar))
                      (of_int 100))
    /\ (index_tz ticker = Some Sample.EST ->
        first_such (fun b => eastern_date Sample.EST b = d
                             /\ new_york_time Sample.EST b = "10:30")
                   target (bars ticker)
        /\ last_such (fun b => eastern_date Sample.EST b = p)
                     last_bar (bars ticker)
        /\ (chronological (bars ticker) ->
            forall b, In b (bars ticker) ->
                      eastern_date Sample.EST b = p ->
                      ts b <= ts last_bar)).
Proof.
  apply (row_is_rounded_return (SV := stable_exact) Sample.EST
           Sample.history ["TSLA"; "AAPL"] Sample.wednesday "10:30"
           [Sample.row "AAPL" 10000 10600 600]).
  - vm_compute. reflexivity.
  - now left.
Defined.

(** ["GOOG"] raises, ["MSFT"] comes back without bars, ["NAIVE"] with a
    naive index: one row, for ["AAPL"]. *)
Lemma failing_symbols_run :
  exists df,
    fst (calculate_stock_returns (SV := stable_exact) Sample.EST
           Sample.history ["GOOG"; "AAPL"; "MSFT"; "NAIVE"]
           Sample.wednesday "09:30")
    = inr df
    /\ (forall symbol e,
          Sample.history symbol 739237 739239 = inl e ->
          ~ In symbol (map Symbol df))
    /\ (forall symbol ticker,
          Sample.history symbol 739237 739239 = inr ticker ->
          index_tz ticker = None
          \/ (forall b, In b (bars ticker) ->
                        ~ (index_date ticker b = 739238
                           /\ new_york_time Sample.EST b = "09:30"))
          \/ (forall b, In b (bars ticker) -> index_date ticker b <> 739237) ->
          ~ In symbol (map Symbol df))
    /\ (forall symbol ticker,
          In symbol ["GOOG"; "AAPL"; "MSFT"; "NAIVE"] ->
          Sample.history symbol 739237 739239 = inr ticker ->
          readable Sample.EST ticker 739238 739237 "09:30" ->
          In symbol (map Symbol df)
          /\ count_occ string_dec (map Symbol df) symbol
             = count_occ string_dec ["GOOG"; "AAPL"; "MSFT"; "NAIVE"] symbol).
Proof.
  apply (failing_symbols_are_skipped (SV := stable_exact) Sample.EST
           Sample.history ["GOOG"; "AAPL"; "MSFT"; "NAIVE"]
           Sample.wednesday "09:30" 739238 739237 739239).
  - reflexivity.
  - vm_compute. reflexivity.
  - reflexivity.
  - reflexivity.
Defined.

Lemma failing_symbols_run_rows :
  fst (calculate_stock_returns (SV := stable_exact) Sample.EST
         Sample.history ["GOOG"; "AAPL"; "MSFT"; "NAIVE"]
         Sample.wednesday "09:30")
  = inr [Sample.row "AAPL" 10000 10500 500]
  /\ process_symbol Sample.EST Sample.history "GOOG" 739238 739237 "09:30"
     = inl ProviderError
  /\ process_symbol Sample.EST Sample.history "MSFT" 739238 739237 "09:30"
     = inl IndexError
  /\ process_symbol Sample.EST Sample.history "NAIVE" 739238 739237 "09:30"
     = inl TypeError.
Proof. repeat split; vm_compute; reflexivity. Qed.

(** Three rows from four distinct symbols. *)
Lemma wednesday_table_size :
  (List.length [Sample.row "AAPL" 10000 10500 500;
                Sample.row "TSLA" 20000 21000 500;
                Sample.row "IBM" 20000 20200 100]
   <= List.length ["IBM"; "AAPL"; "MSFT"; "TSLA"])%nat
  /\ (NoDup ["IBM"; "AAPL"; "MSFT"; "TSLA"] ->
      NoDup (map Symbol [Sample.row "AAPL" 10000 10500 500;
                         Sample.row "TSLA" 20000 21000 500;
                         Sample.row "IBM" 20000 20200 100])).
Proof.
  apply (table_no_larger_than_input (SV := stable_exact) Sample.EST
           Sample.history ["IBM"; "AAPL"; "MSFT"; "TSLA"]
           Sample.wednesday "09:30").
  vm_compute. reflexivity.
Defined.


Lemma duplicated_bar_run_rows :
  fst (calculate_stock_returns (SV := stable_exact) Sample.EST
         Sample.history2 ["SHUF"; "TWICE"] Sample.wednesday "09:30")
  = inr [Sample.row "SHUF" 9950 10500 553;
         Sample.row "TWICE" 10000 10100 100].
Proof. vm_compute. reflexivity. Qed.

(** Exact returns 5.0001 and 5.0004, both stored as 5.00, under a
    provider and under the provider with the two frames exchanged. *)
Lemma rounded_returns_run :
  (forall row,
      In row [Sample.row "P" 100000 105000 500;
              Sample.row "R" 100000 105000 500] ->
      exists x,
        exact_return Sample.EST Sample.history2 (Symbol row)
                     739238 739237 "09:30" = inr x
        /\ Return_pct row = round2 x)
  /\ (exists numbers nans,
        [Sample.row "P" 100000 105000 500;
         Sample.row "R" 100000 105000 500] = numbers ++ nans
        /\ Forall (fun row => isnan (Return_pct row) = false) numbers
        /\ descending numbers
        /\ Forall (fun row => isnan (Return_pct row) = true) nans)
  /\ (forall a b xa xb,
        In a [Sample.row "P" 100000 105000 500;
              Sample.row "R" 100000 105000 500] ->
        In b [Sample.row "P" 100000 105000 500;
              Sample.row "R" 100000 105000 500] ->
        exact_return Sample.EST Sample.history2 (Symbol a)
                     739238 739237 "09:30" = inr xa ->
        exact_return Sample.EST Sample.history2 (Symbol b)
                     739238 739237 "09:30" = inr xb ->
        round2 xa = round2 xb ->
        Return_pct a = Return_pct b
        /\ fge (Return_pct a) (Return_pct b)
           = fge (Return_pct b) (Return_pct a))
  /\ (successes Sample.EST Sample.history2_exchanged ["P"; "R"]
                739238 739237 "09:30"
      = successes Sample.EST Sample.history2 ["P"; "R"]
                  739238 739237 "09:30" ->
      fst (calculate_stock_returns (SV := stable_exact) Sample.EST
             Sample.history2_exchanged ["P"; "R"] Sample.wednesday "09:30")
      = inr [Sample.row "P" 100000 105000 500;
             Sample.row "R" 100000 105000 500]).
Proof.
  apply (order_is_on_rounded_returns (SV := stable_exact) Sample.EST
           Sample.history2 Sample.history2_exchanged ["P"; "R"]
           Sample.wednesday "09:30" 739238 739237).
  - reflexivity.
  - reflexivity.
  - vm_compute. reflexivity.
Defined.

(** In one of the two runs the table stands against the exact returns:
    ["P"] has the smaller exact return under the first provider and the
    greater under the second, and the table is the same. *)
Lemma rounded_returns_run_exact :
  exact_return Sample.EST Sample.history2 "P" 739238 739237 "09:30"
  = inr (50001 # 10000)%Q
  /\ exact_return Sample.EST Sample.history2 "R" 739238 739237 "09:30"
     = inr (12501 # 2500)%Q
  /\ exact_return Sample.EST Sample.history2_exchanged "P"
                  739238 739237 "09:30"
     = inr (12501 # 2500)%Q
  /\ exact_return Sample.EST Sample.history2_exchanged "R"
                  739238 739237 "09:30"
     = inr (50001 # 10000)%Q
  /\ fge (50001 # 10000)%Q (12501 # 2500)%Q = false
  /\ successes Sample.EST Sample.history2_exchanged ["P"; "R"]
               739238 739237 "09:30"
     = successes Sample.EST Sample.history2 ["P"; "R"]
                 739238 739237 "09:30".
Proof. repeat split; vm_compute; reflexivity. Qed.

(** * Further properties *)

(** ** The events of a run *)

Section Traces.

Context {num : Type} {F : Float64 num} {SV : SortValues num}.
Variable America_New_York : tzinfo.
Variable history : string -> Z -> Z -> result (Ticker num).

Local Abbreviation calculate :=
  (calculate_stock_returns America_New_York history).
Local Abbreviation rows_of := (successes America_New_York history).
Local Abbreviation ok := (succeeds America_New_York history).

Lemma try_symbol_trace total idx symbol d p ct :
  snd (try_symbol America_New_York history total idx symbol d p ct)
  = turn_events total idx symbol p (Calendar.timedelta_add d 1).
Proof.
  unfold try_symbol, fetch, turn_events.
  destruct (Calendar.timedelta_add d 1); reflexivity.
Qed.

Lemma for_each_trace_eq symbols :
  forall total idx d p ct st,
    trace (for_each America_New_York history total idx symbols d p ct st)
    = trace st
      ++ loop_events total idx symbols p (Calendar.timedelta_add d 1).
Proof.
  induction symbols as [| symbol rest IH]; intros.
  - simpl. now rewrite app_nil_r.
  - cbn [for_each loop_events].
    rewrite IH, turn_trace, try_symbol_trace. symmetry. apply app_assoc.
Qed.

(** A run on a weekday that has a comparison day, written out. *)
Lemma calculate_on_weekday stock_list cd ct d p :
  Calendar.strptime cd = inr d ->
  Calendar.weekday d < 5 ->
  comparison_day d = inr p ->
  calculate stock_list cd ct
  = let tr := [NewProgress; NewStatus]
              ++ loop_events (List.length stock_list) 0 stock_list p
                             (Calendar.timedelta_add d 1)
              ++ [EmptyProgress; EmptyStatus] in
    match rows_of stock_list d p ct with
    | [] => (ret empty_frame, tr ++ [Warning no_results_msg])
    | row :: rows => (ret (sort_values (row :: rows)), tr)
    end.
Proof.
  intros Hdate Hweek Hprev. unfold calculate_stock_returns.
  rewrite Hdate.
  destruct (Z.geb_spec (Calendar.weekday d) 5) as [Hge | _]; [lia |].
  rewrite Hprev. cbv zeta.
  rewrite for_each_results, for_each_trace_eq. cbn [results trace app].
  destruct (rows_of stock_list d p ct); reflexivity.
Qed.

Lemma successes_nil_iff stock_list d p ct :
  rows_of stock_list d p ct = [] <->
  forall symbol, In symbol stock_list -> ok symbol d p ct = false.
Proof.
  split.
  - intros Hnil symbol Hin. unfold succeeds.
    destruct (process_symbol _ _ symbol d p ct) as [e | row] eqn:E;
      [reflexivity |].
    assert (Hrow : In row (rows_of stock_list d p ct))
      by (apply in_successes; eauto).
    rewrite Hnil in Hrow. contradiction.
  - intros Hall.
    destruct (rows_of stock_list d p ct) as [| row rows] eqn:E;
      [reflexivity |].
    assert (Hrow : In row (rows_of stock_list d p ct))
      by (rewrite E; now left).
    apply in_successes in Hrow. destruct Hrow as (symbol & Hin & Hproc).
    specialize (Hall symbol Hin). unfold succeeds in Hall.
    rewrite Hproc in Hall. discriminate.
Qed.

Lemma loop_events_history total symbols :
  forall idx p e,
    filter is_history (loop_events total idx symbols p (inr e))
    = map (fun symbol => History symbol p e) symbols.
Proof.
  induction symbols as [| symbol rest IH]; intros; simpl.
  - reflexivity.
  - now rewrite IH.
Qed.

Lemma loop_events_report total symbols :
  forall idx p end_,
    filter is_report (loop_events total idx symbols p end_)
    = flat_map (fun ks => [Progress (fst ks) total;
                           StatusText (snd ks) (fst ks) total])
               (combine (seq (S idx) (List.length symbols)) symbols).
Proof.
  induction symbols as [| symbol rest IH]; intros.
  - reflexivity.
  - cbn [loop_events List.length seq combine flat_map].
    rewrite filter_app, IH.
    unfold turn_events. rewrite filter_app.
    destruct end_ as [e | e]; reflexivity.
Qed.

Lemma loop_events_no_warning total symbols :
  forall idx p end_ msg,
    ~ In (Warning msg) (loop_events total idx symbols p end_).
Proof.
  induction symbols as [| symbol rest IH]; intros idx p end_ msg Hin.
  - contradiction.
  - cbn [loop_events] in Hin. apply in_app_or in Hin.
    destruct Hin as [Hin | Hin]; [| now apply IH in Hin].
    unfold turn_events in Hin. apply in_app_or in Hin.
    destruct Hin as [[H | [H | []]] | Hin]; try discriminate.
    destruct end_; [contradiction |].
    destruct Hin as [H | []]. discriminate.
Qed.

(** X1.  On a weekday the provider is asked exactly once for each entry
    of the input list, in the order of the list and always for the same
    range, from the comparison day to the day after the target date; an
    entry that is repeated is asked for again. *)
Theorem provider_asked_once_per_entry
    (stock_list : list string) (cd : Calendar.mdy) (ct : string) (d p : Z) :
  Calendar.strptime cd = inr d ->
  Calendar.weekday d < 5 ->
  comparison_day d = inr p ->
  d < Calendar.MAXORDINAL ->
  filter is_history (snd (calculate stock_list cd ct))
  = map (fun symbol => History symbol p (d + 1)) stock_list.
Proof.
  intros Hdate Hweek Hprev Hmax.
  rewrite (calculate_on_weekday stock_list cd ct d p Hdate Hweek Hprev).
  assert (Hend : Calendar.timedelta_add d 1 = inr (d + 1)).
  { pose proof (CalendarFacts.strptime_range cd d Hdate) as Hrange.
    unfold Calendar.timedelta_add.
    destruct (_ && _) eqn:E; [reflexivity |].
    apply andb_false_iff in E. rewrite !Z.leb_gt in E. lia. }
  rewrite Hend. cbv zeta.
  destruct (rows_of stock_list d p ct); cbn [snd];
    rewrite ?filter_app, loop_events_history; simpl;
    now rewrite ?app_nil_r.
Qed.

(** X2.  On a weekday the progress bar and the status text are set once
    per entry of the input list, in the order of the list, to
    [(k, total)] for the [k]-th entry, counting from 1: the last report is
    [(total, total)], whether the entries succeed or not. *)
Theorem progress_reported_per_entry
    (stock_list : list string) (cd : Calendar.mdy) (ct : string) (d p : Z) :
  Calendar.strptime cd = inr d ->
  Calendar.weekday d < 5 ->
  comparison_day d = inr p ->
  let total := List.length stock_list in
  filter is_report (snd (calculate stock_list cd ct))
  = flat_map (fun ks => [Progress (fst ks) total;
                         StatusText (snd ks) (fst ks) total])
             (combine (seq 1 total) stock_list).
Proof.
  intros Hdate Hweek Hprev total.
  rewrite (calculate_on_weekday stock_list cd ct d p Hdate Hweek Hprev).
  cbv zeta.
  destruct (rows_of stock_list d p ct); cbn [snd];
    rewrite ?filter_app, loop_events_report; simpl;
    now rewrite ?app_nil_r.
Qed.

(** X3.  On a weekday the table comes back empty exactly when no entry
    of the input list succeeds (in particular for the empty list), and the
    warning that no results were returned is shown exactly then. *)
Theorem empty_table_iff_no_success
    (stock_list : list string) (cd : Calendar.mdy) (ct : string) (d p : Z) :
  Calendar.strptime cd = inr d ->
  Calendar.weekday d < 5 ->
  comparison_day d = inr p ->
  let run := calculate stock_list cd ct in
  let none_succeeds :=
    forall symbol, In symbol stock_list -> ok symbol d p ct = false in
  (fst run = inr empty_frame <-> none_succeeds)
  /\ (In (Warning no_results_msg) (snd run) <-> none_succeeds).
Proof.
  intros Hdate Hweek Hprev run none_succeeds. subst run none_succeeds.
  rewrite (calculate_on_weekday stock_list cd ct d p Hdate Hweek Hprev).
  rewrite <- successes_nil_iff. cbv zeta.
  destruct (rows_of stock_list d p ct) as [| row rows]; cbn [fst snd].
  - split; split; intros _; try reflexivity.
    apply in_or_app. right. now left.
  - split; split; try discriminate.
    + intros [= Hnil].
      pose proof (sort_values_perm (row :: rows)) as Hperm.
      unfold empty_frame in Hnil. rewrite Hnil in Hperm.
      apply Permutation_nil in Hperm. discriminate.
    + intros Hin. exfalso. simpl in Hin.
      destruct Hin as [H | [H | Hin]]; try discriminate.
      apply in_app_or in Hin. destruct Hin as [Hin | Hin].
      * now apply loop_events_no_warning in Hin.
      * destruct Hin as [H | [H | []]]; discriminate.
Qed.

End Traces.

(** ** Which symbols get a row *)

Section Success.

Context {num : Type} {F : Float64 num} {SV : SortValues num}.
Variable America_New_York : tzinfo.
Variable history : string -> Z -> Z -> result (Ticker num).

Local Abbreviation calculate :=
  (calculate_stock_returns America_New_York history).
Local Abbreviation rows_of := (successes America_New_York history).
Local Abbreviation ok := (succeeds America_New_York history).
Local Abbreviation ny_time := (new_york_time America_New_York).

(** X4.  On a weekday a symbol has a row in the returned table exactly
    when it is an entry of the input list and the provider answers the
    request for it with a frame whose index is tz-aware, one of whose bars
    stands under the target date in the index and shows the target time in
    New York, and one of whose bars stands under the comparison day in the
    index. *)
Theorem symbol_has_row_iff
    (stock_list : list string) (cd : Calendar.mdy) (ct : string)
    (d p end_ : Z) (df : DataFrame num) (symbol : string) :
  Calendar.strptime cd = inr d ->
  Calendar.weekday d < 5 ->
  comparison_day d = inr p ->
  Calendar.timedelta_add d 1 = inr end_ ->
  fst (calculate stock_list cd ct) = inr df ->
  In symbol (map Symbol df) <->
  In symbol stock_list
  /\ exists ticker,
       history symbol p end_ = inr ticker
       /\ index_tz ticker <> None
       /\ (exists b, In b (bars ticker)
                     /\ index_date ticker b = d /\ ny_time b = ct)
       /\ (exists b, In b (bars ticker) /\ index_date ticker b = p).
Proof.
  intros Hdate Hweek Hprev Hend Hrun.
  destruct (table_symbols America_New_York history stock_list cd ct d p
              Hdate Hweek Hprev) as (df' & Hdf' & _ & Hsyms).
  rewrite Hdf' in Hrun. injection Hrun as ->.
  pose proof (succeeds_iff_readable America_New_York history symbol
                d p end_ ct Hend) as Hok.
  unfold readable in Hok. split.
  - intros Hin. apply (Permutation_in _ Hsyms) in Hin.
    apply filter_In in Hin. destruct Hin as [Hin Hs].
    split; [assumption |]. now apply Hok.
  - intros [Hin Hread].
    apply (Permutation_in _ (Permutation_sym Hsyms)).
    apply filter_In. split; [assumption |]. now apply Hok.
Qed.

Lemma strftime_HM_length (w : Z) : String.length (strftime_HM w) = 5%nat.
Proof. reflexivity. Qed.

Lemma at_time_malformed (data : Ticker num) (ct : string) :
  String.length ct <> 5%nat -> at_time data ct = [].
Proof.
  intros Hlen. unfold at_time.
  induction (bars data) as [| b rest IH]; [reflexivity |].
  cbn [filter].
  destruct (String.eqb_spec (strftime_HM (wall (index_tz data) (ts b))) ct)
    as [Heq | _]; [| exact IH].
  rewrite <- Heq, strftime_HM_length in Hlen. contradiction.
Qed.

(** X5.  A target time that is not five characters long (["9:30"]
    instead of ["09:30"], say) matches no bar: every symbol is skipped and
    the table comes back empty. *)
Theorem malformed_time_gives_empty_table
    (stock_list : list string) (cd : Calendar.mdy) (ct : string)
    (df : DataFrame num) :
  String.length ct <> 5%nat ->
  fst (calculate stock_list cd ct) = inr df ->
  df = [].
Proof.
  intros Hlen Hrun.
  destruct (calculate_inr America_New_York history stock_list cd ct df Hrun)
    as (d & _ & [[_ ->] | (_ & p & _ & Hperm & _)]); [reflexivity |].
  assert (Hnil : rows_of stock_list d p ct = []).
  { destruct (rows_of stock_list d p ct) as [| row rows] eqn:E;
      [reflexivity |].
    assert (Hrow : In row (rows_of stock_list d p ct))
      by (rewrite E; now left).
    apply in_successes in Hrow. destruct Hrow as (symbol & _ & Hproc).
    apply process_symbol_inr in Hproc.
    destruct Hproc as (end_ & ticker & prices & _ & _ & Hcloses & _).
    apply closes_inr in Hcloses.
    destruct Hcloses as (tz & target & more & front & last_bar
                         & _ & Htime & _).
    rewrite (at_time_malformed _ ct Hlen) in Htime. discriminate. }
  rewrite Hnil in Hperm. apply Permutation_sym, Permutation_nil in Hperm.
  exact Hperm.
Qed.

(** X6.  The rows do not depend on the order of the input list: two
    lists with the same entries in different orders give tables with the
    same rows. *)
Theorem rows_independent_of_input_order
    (stock_list stock_list' : list string) (cd : Calendar.mdy) (ct : string)
    (df : DataFrame num) :
  Permutation stock_list stock_list' ->
  fst (calculate stock_list cd ct) = inr df ->
  exists df',
    fst (calculate stock_list' cd ct) = inr df'
    /\ Permutation df df'.
Proof.
  intros Hlists Hrun.
  destruct (calculate_inr America_New_York history stock_list cd ct df Hrun)
    as (d & Hdate & [[Hweek ->] | (Hweek & p & Hprev & Hperm & _)]).
  - exists []. split; [| constructor].
    unfold calculate_stock_returns. rewrite Hdate.
    destruct (Z.geb_spec (Calendar.weekday d) 5); [reflexivity | lia].
  - destruct (calculate_table America_New_York history stock_list' cd ct
                d p Hdate Hweek Hprev) as (df' & Hdf' & Hperm' & _).
    exists df'. split; [assumption |].
    eapply perm_trans; [exact Hperm |].
    eapply perm_trans; [| apply Permutation_sym; exact Hperm'].
    unfold successes. now apply Permutation_flat_map.
Qed.

(** X7.  On a weekday the table has, for each symbol, as many rows as
    the input list has entries of that symbol when the symbol succeeds,
    and none when it fails: a symbol entered twice is listed twice. *)
Theorem rows_per_symbol
    (stock_list : list string) (cd : Calendar.mdy) (ct : string) (d p : Z)
    (df : DataFrame num) (symbol : string) :
  Calendar.strptime cd = inr d ->
  Calendar.weekday d < 5 ->
  comparison_day d = inr p ->
  fst (calculate stock_list cd ct) = inr df ->
  count_occ string_dec (map Symbol df) symbol
  = if ok symbol d p ct then count_occ string_dec stock_list symbol
    else 0%nat.
Proof.
  intros Hdate Hweek Hprev Hrun.
  destruct (calculate_table America_New_York history stock_list cd ct
              d p Hdate Hweek Hprev) as (df' & Hdf' & Hperm & _).
  rewrite Hdf' in Hrun. injection Hrun as ->.
  rewrite <- (count_occ_filter (fun s => ok s d p ct)).
  rewrite <- successes_symbols.
  apply (Permutation_count_occ string_dec). now apply Permutation_map.
Qed.

End Success.

(** X8.  The comparison day of a weekday is itself a weekday, at most
    three days before the target date: the Friday before a Monday, the
    day before any other weekday. *)
Theorem comparison_day_is_a_weekday (d p : Z) :
  Calendar.weekday d < 5 ->
  comparison_day d = inr p ->
  0 <= Calendar.weekday p < 5
  /\ d - 3 <= p < d
  /\ Calendar.weekday p
     = (if Calendar.weekday d =? 0 then 4 else Calendar.weekday d - 1).
Proof.
  unfold comparison_day, Calendar.timedelta_sub, Calendar.timedelta_add.
  intros Hweek Hprev.
  destruct (Z.eqb_spec (Calendar.weekday d) 0) as [Hmon | Hother];
    destruct (_ && _) eqn:E; try discriminate;
    injection Hprev as <-;
    apply andb_true_iff in E; rewrite !Z.leb_le in E;
    unfold Calendar.weekday in *; Z.div_mod_to_equations; lia.
Qed.

(** ** The download link *)

Module Base64Facts.

Import Base64.

Lemma byte_range (c : ascii) : 0 <= byte c < 256.
Proof.
  unfold byte. pose proof (N_ascii_bounded c) as H. lia.
Qed.

Lemma chr_byte (c : ascii) : chr (byte c) = c.
Proof.
  unfold chr, byte. rewrite N2Z.id. apply ascii_N_embedding.
Qed.

(** Each of the 64 characters of the alphabet stands for its index and
    is not the padding character. *)
Lemma sextet_value (i : Z) :
  0 <= i < 64 ->
  value (sextet i) = Some i /\ Ascii.eqb (sextet i) PAD = false.
Proof.
  intros Hi.
  assert (Hall : forallb
            (fun k => let j := Z.of_nat k in
                      match value (sextet j) with
                      | Some v => v =? j
                      | None => false
                      end && negb (Ascii.eqb (sextet j) PAD))
            (seq 0 64) = true) by (vm_compute; reflexivity).
  rewrite forallb_forall in Hall.
  specialize (Hall (Z.to_nat i)).
  rewrite Z2Nat.id in Hall by lia. cbv zeta in Hall.
  assert (Hin : In (Z.to_nat i) (seq 0 64)) by (apply in_seq; lia).
  specialize (Hall Hin). apply andb_true_iff in Hall.
  destruct Hall as [Hv Hp].
  destruct (value (sextet i)) as [v |]; [| discriminate].
  apply Z.eqb_eq in Hv. subst v.
  split; [reflexivity |]. now apply negb_true_iff in Hp.
Qed.

Lemma string_ind3 (P : string -> Prop) :
  P EmptyString ->
  (forall a, P (String a EmptyString)) ->
  (forall a b, P (String a (String b EmptyString))) ->
  (forall a b c rest, P rest -> P (String a (String b (String c rest)))) ->
  forall s, P s.
Proof.
  intros H0 H1 H2 H3.
  assert (Hall : forall s,
             P s /\ (forall a, P (String a s))
             /\ (forall a b, P (String a (String b s)))).
  { induction s as [| c s (IH0 & IH1 & IH2)].
    - auto.
    - repeat split; auto. }
  intros s. apply Hall.
Qed.

(** Decoding a full group of four characters. *)
Lemma b64decode_group (i0 i1 i2 i3 : Z) (text : string) :
  0 <= i0 < 64 -> 0 <= i1 < 64 -> 0 <= i2 < 64 -> 0 <= i3 < 64 ->
  b64decode (String (sextet i0) (String (sextet i1)
               (String (sextet i2) (String (sextet i3) text))))
  = match b64decode text with
    | Some tail =>
        Some (String (chr (i0 * 4 + i1 / 16))
                (String (chr (i1 mod 16 * 16 + i2 / 4))
                   (String (chr (i2 mod 4 * 64 + i3)) tail)))
    | None => None
    end.
Proof.
  intros H0 H1 H2 H3.
  destruct (sextet_value i0 H0) as [V0 _].
  destruct (sextet_value i1 H1) as [V1 _].
  destruct (sextet_value i2 H2) as [V2 _].
  destruct (sextet_value i3 H3) as [V3 P3].
  cbn [b64decode]. rewrite V0, V1, P3, V2, V3. reflexivity.
Qed.

Lemma b64decode_two_bytes (i0 i1 i2 : Z) :
  0 <= i0 < 64 -> 0 <= i1 < 64 -> 0 <= i2 < 64 ->
  b64decode (String (sextet i0) (String (sextet i1)
               (String (sextet i2) (String PAD EmptyString))))
  = Some (String (chr (i0 * 4 + i1 / 16))
            (String (chr (i1 mod 16 * 16 + i2 / 4)) EmptyString)).
Proof.
  intros H0 H1 H2.
  destruct (sextet_value i0 H0) as [V0 _].
  destruct (sextet_value i1 H1) as [V1 _].
  destruct (sextet_value i2 H2) as [V2 P2].
  cbn [b64decode]. rewrite V0, V1, P2, V2.
  change (Ascii.eqb PAD PAD) with true. reflexivity.
Qed.

Lemma b64decode_one_byte (i0 i1 : Z) :
  0 <= i0 < 64 -> 0 <= i1 < 64 ->
  b64decode (String (sextet i0) (String (sextet i1)
               (String PAD (String PAD EmptyString))))
  = Some (String (chr (i0 * 4 + i1 / 16)) EmptyString).
Proof.
  intros H0 H1.
  destruct (sextet_value i0 H0) as [V0 _].
  destruct (sextet_value i1 H1) as [V1 _].
  cbn [b64decode]. rewrite V0, V1.
  change (Ascii.eqb PAD PAD) with true. reflexivity.
Qed.

(** Decoding undoes encoding. *)
Lemma b64decode_b64encode (data : string) :
  b64decode (b64encode data) = Some data.
Proof.
  induction data as [| a | a b | a b c rest IH] using string_ind3.
  - reflexivity.
  - pose proof (byte_range a) as Ha.
    cbn [b64encode]. rewrite b64decode_one_byte
      by (Z.div_mod_to_equations; lia).
    replace (byte a / 4 * 4 + byte a mod 4 * 16 / 16) with (byte a)
      by (Z.div_mod_to_equations; lia).
    now rewrite chr_byte.
  - pose proof (byte_range a) as Ha. pose proof (byte_range b) as Hb.
    cbn [b64encode]. rewrite b64decode_two_bytes
      by (Z.div_mod_to_equations; lia).
    replace (byte a / 4 * 4 + (byte a mod 4 * 16 + byte b / 16) / 16)
      with (byte a) by (Z.div_mod_to_equations; lia).
    replace ((byte a mod 4 * 16 + byte b / 16) mod 16 * 16
             + byte b mod 16 * 4 / 4)
      with (byte b) by (Z.div_mod_to_equations; lia).
    now rewrite !chr_byte.
  - pose proof (byte_range a) as Ha. pose proof (byte_range b) as Hb.
    pose proof (byte_range c) as Hc.
    cbn [b64encode]. rewrite b64decode_group
      by (Z.div_mod_to_equations; lia).
    rewrite IH.
    replace (byte a / 4 * 4 + (byte a mod 4 * 16 + byte b / 16) / 16)
      with (byte a) by (Z.div_mod_to_equations; lia).
    replace ((byte a mod 4 * 16 + byte b / 16) mod 16 * 16
             + (byte b mod 16 * 4 + byte c / 64) / 4)
      with (byte b) by (Z.div_mod_to_equations; lia).
    replace ((byte b mod 16 * 4 + byte c / 64) mod 4 * 64 + byte c mod 64)
      with (byte c) by (Z.div_mod_to_equations; lia).
    now rewrite !chr_byte.
Qed.

Lemma sextet_is_b64_char (i : Z) :
  0 <= i < 64 -> is_b64_char (sextet i) = true.
Proof.
  intros Hi. unfold is_b64_char.
  destruct (sextet_value i Hi) as [-> _]. reflexivity.
Qed.

(** Encoded text consists of characters of the alphabet and padding. *)
Lemma b64encode_chars (data : string) :
  Forall (fun c => is_b64_char c = true)
         (list_ascii_of_string (b64encode data)).
Proof.
  induction data as [| a | a b | a b c rest IH] using string_ind3.
  - constructor.
  - pose proof (byte_range a) as Ha.
    cbn [b64encode list_ascii_of_string].
    repeat constructor;
      apply sextet_is_b64_char; Z.div_mod_to_equations; lia.
  - pose proof (byte_range a) as Ha. pose proof (byte_range b) as Hb.
    cbn [b64encode list_ascii_of_string].
    repeat constructor;
      apply sextet_is_b64_char; Z.div_mod_to_equations; lia.
  - pose proof (byte_range a) as Ha. pose proof (byte_range b) as Hb.
    pose proof (byte_range c) as Hc.
    cbn [b64encode list_ascii_of_string].
    repeat (constructor;
            [apply sextet_is_b64_char; Z.div_mod_to_equations; lia |]).
    exact IH.
Qed.

End Base64Facts.

Section StringFacts.

Lemma length_append (a b : string) :
  String.length (String.append a b)
  = (String.length a + String.length b)%nat.
Proof. induction a as [| c a IH]; simpl; [reflexivity | now rewrite IH]. Qed.

Lemma append_inv_head (p x y : string) :
  String.append p x = String.append p y -> x = y.
Proof.
  induction p as [| c p IH]; simpl; [auto |].
  intros [= H]. now apply IH.
Qed.

Lemma append_inv_tail (s : string) :
  forall x y, String.append x s = String.append y s -> x = y.
Proof.
  induction x as [| c x IH]; intros [| c' y] H; simpl in H.
  - reflexivity.
  - apply (f_equal String.length) in H. simpl in H.
    rewrite length_append in H. lia.
  - apply (f_equal String.length) in H. simpl in H.
    rewrite length_append in H. lia.
  - injection H as -> H. f_equal. now apply IH.
Qed.

End StringFacts.

Section Link.

Context {num : Type}.
Variable to_csv : DataFrame num -> string.

(** X9.  The download link carries the whole CSV text: what stands
    between the fixed beginning and the fixed end of the anchor decodes,
    as base64, to exactly the text [to_csv] wrote, so two tables with
    different CSV texts never get the same link. *)
Theorem download_link_carries_the_csv (df df' : DataFrame num) :
  (exists payload,
      get_table_download_link to_csv df
      = String.append link_prefix (String.append payload link_suffix)
      /\ Base64.b64decode payload = Some (to_csv df))
  /\ (get_table_download_link to_csv df
      = get_table_download_link to_csv df' ->
      to_csv df = to_csv df').
Proof.
  split.
  - exists (Base64.b64encode (to_csv df)). split; [reflexivity |].
    apply Base64Facts.b64decode_b64encode.
  - unfold get_table_download_link. intros H.
    apply append_inv_head, append_inv_tail in H.
    apply (f_equal Base64.b64decode) in H.
    rewrite !Base64Facts.b64decode_b64encode in H. now injection H.
Qed.

(** X10.  Whatever the table holds, the part of the link that comes
    from it consists of base64 characters only: no double quote and no
    angle bracket from the data can end the [href] attribute or the tag
    early. *)
Theorem download_link_payload_is_base64 (df : DataFrame num) :
  exists payload,
    get_table_download_link to_csv df
    = String.append link_prefix (String.append payload link_suffix)
    /\ forall c, In c (list_ascii_of_string payload) ->
         Base64.is_b64_char c = true
         /\ c <> DQUOTE
         /\ c <> ascii_of_nat 60
         /\ c <> ascii_of_nat 62.
Proof.
  exists (Base64.b64encode (to_csv df)). split; [reflexivity |].
  intros c Hc.
  pose proof (Base64Facts.b64encode_chars (to_csv df)) as Hall.
  rewrite Forall_forall in Hall. specialize (Hall c Hc).
  repeat split; [exact Hall | | |]; intros ->; discriminate.
Qed.

End Link.

(** ** The page *)

Section SortedFacts.

Variable A : Type.

Lemma sorted_firstn (R : A -> A -> Prop) (l : list A) :
  Sorted R l -> forall n, Sorted R (firstn n l).
Proof.
  induction 1 as [| x l Hs IH Hhd]; intros [| n]; simpl; try constructor.
  - apply IH.
  - destruct Hhd as [| y l' Hxy]; [destruct n; constructor |].
    destruct n; simpl; constructor. exact Hxy.
Qed.

Lemma sorted_skipn (R : A -> A -> Prop) (n : nat) :
  forall l, Sorted R l -> Sorted R (skipn n l).
Proof.
  induction n as [| n IH]; intros l Hs; [exact Hs |].
  destruct l as [| x l]; [constructor |].
  simpl. apply IH. now inversion Hs.
Qed.

(** Appending an element that the last one is related to. *)
Lemma sorted_snoc (R : A -> A -> Prop) (l : list A) (x : A) :
  Sorted R l ->
  (forall y rest, rev l = y :: rest -> R y x) ->
  Sorted R (l ++ [x]).
Proof.
  induction 1 as [| a l Hs IH Hhd]; intros Hlast; simpl.
  - repeat constructor.
  - constructor.
    + apply IH. intros y rest Hrev.
      apply (Hlast y (rest ++ [a])). simpl. now rewrite Hrev.
    + destruct Hhd as [| b l' Hab]; simpl.
      * constructor. now apply (Hlast a []).
      * constructor. exact Hab.
Qed.

Lemma sorted_rev (R : A -> A -> Prop) (l : list A) :
  Sorted R l -> Sorted (fun a b => R b a) (rev l).
Proof.
  induction 1 as [| a l Hs IH Hhd]; simpl; [constructor |].
  apply sorted_snoc; [exact IH |].
  intros y rest Hrev. rewrite rev_involutive in Hrev. subst l.
  now inversion Hhd.
Qed.

(** In a strongly sorted list every element is related to the last. *)
Lemma strongly_sorted_last (R : A -> A -> Prop) (front : list A) (x : A) :
  StronglySorted R (front ++ [x]) -> Forall (fun y => R y x) front.
Proof.
  induction front as [| y front IH]; simpl; intros Hs; [constructor |].
  inversion Hs as [| ? ? Hs' Hall]; subst. constructor.
  - rewrite Forall_forall in Hall. apply Hall.
    apply in_or_app. right. now left.
  - now apply IH.
Qed.

End SortedFacts.

Lemma truthy_false_iff (s : string) : Text.truthy s = false <-> s = "".
Proof. destruct s; simpl; split; intros H; try reflexivity; discriminate. Qed.

Lemma stocks_list_map_filter (stock_input : string) :
  Text.stocks_list stock_input
  = map (fun s => Text.upper (Text.strip s))
        (filter (fun s => Text.truthy (Text.strip s))
                (Text.split_lines stock_input)).
Proof.
  unfold Text.stocks_list. destruct stock_input as [| c s].
  - reflexivity.
  - cbn [Text.truthy]. apply TextFacts.comprehension_map_filter.
Qed.

(** The list is empty exactly when every line of the text is blank. *)
Lemma stocks_list_nil_iff (stock_input : string) :
  Text.stocks_list stock_input = [] <->
  forall line, In line (Text.split_lines stock_input) ->
               Text.strip line = "".
Proof.
  rewrite stocks_list_map_filter. split.
  - intros Hnil line Hin. apply truthy_false_iff.
    destruct (Text.truthy (Text.strip line)) eqn:E; [| reflexivity].
    apply map_eq_nil in Hnil.
    assert (Hl : In line (filter (fun s => Text.truthy (Text.strip s))
                                 (Text.split_lines stock_input)))
      by (apply filter_In; auto).
    rewrite Hnil in Hl. contradiction.
  - intros Hall.
    induction (Text.split_lines stock_input) as [| line rest IH];
      [reflexivity |].
    cbn [filter].
    rewrite (proj2 (truthy_false_iff _) (Hall line (or_introl eq_refl))).
    apply IH. intros l Hl. apply Hall. now right.
Qed.

(** Each entry of the list is a non-blank line, trimmed and in upper
    case. *)
Lemma stocks_list_in (stock_input symbol : string) :
  In symbol (Text.stocks_list stock_input) <->
  exists line, In line (Text.split_lines stock_input)
               /\ Text.strip line <> ""
               /\ symbol = Text.upper (Text.strip line).
Proof.
  rewrite stocks_list_map_filter, in_map_iff. split.
  - intros (line & <- & Hin). apply filter_In in Hin.
    destruct Hin as [Hin Hline]. exists line. repeat split; auto.
    intros Hblank. rewrite Hblank in Hline. discriminate.
  - intros (line & Hin & Hline & ->). exists line. split; [reflexivity |].
    apply filter_In. split; [assumption |].
    destruct (Text.strip line); [contradiction | reflexivity].
Qed.

Section PageFacts.

Context {num : Type} {F : Float64 num} {SV : SortValues num}.
Variable America_New_York : tzinfo.
Variable history : string -> Z -> Z -> result (Ticker num).
Variable to_csv : DataFrame num -> string.

Local Abbreviation calculate :=
  (calculate_stock_returns America_New_York history).
Local Abbreviation page := (main America_New_York history to_csv).

(** The provider is asked for entries of the input list only. *)
Lemma calculate_requests_in stock_list cd ct symbol start end_ :
  In (History symbol start end_) (snd (calculate stock_list cd ct)) ->
  In symbol stock_list.
Proof.
  intros Hin.
  destruct (Calendar.strptime cd) as [e | d] eqn:Hdate.
  - unfold calculate_stock_returns in Hin. rewrite Hdate in Hin.
    contradiction.
  - destruct (Z.lt_ge_cases (Calendar.weekday d) 5) as [Hweek | Hweek].
    + destruct (comparison_day d) as [e | p] eqn:Hprev.
      * unfold calculate_stock_returns in Hin. rewrite Hdate in Hin.
        destruct (Z.geb_spec (Calendar.weekday d) 5); [lia |].
        rewrite Hprev in Hin. contradiction.
      * now destruct (calculate_requests America_New_York history
                        stock_list cd ct d p symbol start end_
                        Hdate Hweek Hprev Hin).
    + unfold calculate_stock_returns in Hin. rewrite Hdate in Hin.
      destruct (Z.geb_spec (Calendar.weekday d) 5); [| lia].
      destruct Hin as [Hw | []]. discriminate.
Qed.

(** The page after a click on a text with symbols. *)
Lemma main_after_click stock_input cd ct :
  Text.stocks_list stock_input <> [] ->
  page stock_input cd ct true
  = let stocks_list := Text.stocks_list stock_input in
    let loaded := [Loaded (List.length stocks_list)] in
    match calculate stocks_list cd ct with
    | (inl e, evs) => (inl e, loaded ++ map Calculator evs)
    | (inr df, evs) =>
        (ret tt,
         loaded ++ map Calculator evs
         ++ [TableView df (get_table_download_link to_csv df);
             TopPerformers (head 10 df);
             BottomPerformers (reversed (tail 10 df));
             Footer])
    end.
Proof.
  intros Hne. unfold main. cbv zeta.
  destruct (Text.stocks_list stock_input) as [| s l]; [contradiction |].
  destruct (calculate (s :: l) cd ct) as [[e | df] evs]; reflexivity.
Qed.

(** The views of a page come from the table the calculator returned. *)
Lemma main_views stock_input cd ct button ev :
  In ev (snd (page stock_input cd ct button)) ->
  match ev with
  | TableView df link =>
      fst (calculate (Text.stocks_list stock_input) cd ct) = inr df
      /\ link = get_table_download_link to_csv df
  | TopPerformers t =>
      exists df, fst (calculate (Text.stocks_list stock_input) cd ct) = inr df
                 /\ t = head 10 df
  | BottomPerformers b =>
      exists df, fst (calculate (Text.stocks_list stock_input) cd ct) = inr df
                 /\ b = reversed (tail 10 df)
  | Calculator ev' =>
      button = true
      /\ In ev' (snd (calculate (Text.stocks_list stock_input) cd ct))
  | _ => True
  end.
Proof.
  destruct button.
  - destruct (Text.stocks_list stock_input) as [| s l] eqn:E.
    + unfold main. rewrite E. simpl.
      intros [<- | [<- | []]]; exact I.
    + rewrite main_after_click by (rewrite E; discriminate).
      cbv zeta. rewrite E.
      destruct (calculate (s :: l) cd ct) as [[e | df] evs];
        cbn [fst snd app].
      * intros [<- | Hin]; [exact I |].
        apply in_map_iff in Hin. destruct Hin as (ev' & <- & Hin). auto.
      * intros [<- | Hin]; [exact I |].
        apply in_app_or in Hin. destruct Hin as [Hin | Hin].
        -- apply in_map_iff in Hin. destruct Hin as (ev' & <- & Hin). auto.
        -- destruct Hin as [<- | [<- | [<- | [<- | []]]]]; eauto.
  - unfold main. simpl. intros [<- | [<- | [<- | []]]]; exact I.
Qed.

(** X11.  A click on a text area whose lines are all blank (empty or
    white space only) shows the count 0 and the warning to enter symbols
    and stops there: the calculator is not run, nothing else is shown, not
    even the footer.  Any other text gets past the warning. *)
Theorem blank_text_stops_at_the_warning
    (stock_input : string) (cd : Calendar.mdy) (ct : string) :
  (forall line, In line (Text.split_lines stock_input) ->
                Text.strip line = "")
  <-> page stock_input cd ct true = (ret tt, [Loaded 0; EnterSymbols true]).
Proof.
  rewrite <- stocks_list_nil_iff. split.
  - intros Hnil. unfold main. rewrite Hnil. reflexivity.
  - intros Hpage.
    destruct (Text.stocks_list stock_input) as [| s l] eqn:E;
      [reflexivity |].
    rewrite main_after_click in Hpage by (rewrite E; discriminate).
    cbv zeta in Hpage. rewrite E in Hpage.
    destruct (calculate (s :: l) cd ct) as [[e | df] evs];
      simpl in Hpage; discriminate.
Qed.

(** X12.  Whatever the page asks the provider, it asks after a click
    and for a symbol that stands on a non-blank line of the text area,
    trimmed and in upper case. *)
Theorem provider_asked_for_entered_symbols_only
    (stock_input : string) (cd : Calendar.mdy) (ct : string) (button : bool)
    (symbol : string) (start end_ : Z) :
  In (Calculator (History symbol start end_))
     (snd (page stock_input cd ct button)) ->
  button = true
  /\ exists line, In line (Text.split_lines stock_input)
                  /\ Text.strip line <> ""
                  /\ symbol = Text.upper (Text.strip line).
Proof.
  intros Hin. apply main_views in Hin. destruct Hin as [Hb Hin].
  split; [exact Hb |].
  apply calculate_requests_in in Hin. now apply stocks_list_in.
Qed.

Lemma calculate_order stock_list cd ct df :
  fst (calculate stock_list cd ct) = inr df -> numbers_then_nans df.
Proof.
  intros Hrun.
  destruct (calculate_inr America_New_York history stock_list cd ct df Hrun)
    as (d & _ & [[_ ->] | (_ & p & _ & _ & Hsorted)]).
  - apply numbers_then_nans_nil.
  - exact Hsorted.
Qed.

(** X13.  The two performer views are cut from the table: the top view
    is its first ten rows (all of them when there are fewer), the bottom
    view is its last ten rows in reverse; with ten rows or fewer the bottom
    view is the top view read backwards. *)
Theorem performer_views_are_cut_from_the_table
    (stock_input : string) (cd : Calendar.mdy) (ct : string) (button : bool)
    (top_10 bottom_10 : DataFrame num) :
  In (TopPerformers top_10) (snd (page stock_input cd ct button)) ->
  In (BottomPerformers bottom_10) (snd (page stock_input cd ct button)) ->
  exists df,
    fst (calculate (Text.stocks_list stock_input) cd ct) = inr df
    /\ List.length top_10 = Nat.min 10 (List.length df)
    /\ List.length bottom_10 = Nat.min 10 (List.length df)
    /\ (exists rest, df = top_10 ++ rest)
    /\ (exists front, df = front ++ rev bottom_10)
    /\ ((List.length df <= 10)%nat ->
        top_10 = df /\ bottom_10 = rev top_10).
Proof.
  intros Htop Hbottom.
  apply main_views in Htop. destruct Htop as (df & Hdf & ->).
  apply main_views in Hbottom. destruct Hbottom as (df' & Hdf' & ->).
  rewrite Hdf in Hdf'. injection Hdf' as <-.
  exists df. unfold head, tail, reversed. repeat split.
  - exact Hdf.
  - apply length_firstn.
  - rewrite length_rev, length_skipn. lia.
  - exists (skipn 10 df). symmetry. apply firstn_skipn.
  - exists (firstn (List.length df - 10) df).
    rewrite rev_involutive. symmetry. apply firstn_skipn.
  - now apply firstn_all2.
  - rewrite firstn_all2 by assumption.
    replace (List.length df - 10)%nat with 0%nat by lia. reflexivity.
Qed.

(** X14.  When no return of the table is [nan] and the comparison of
    returns is transitive, the top view is in descending order and leads
    with the greatest return of the table, and the bottom view is in
    ascending order and leads with the least: every other row of the table
    compares accordingly. *)
Theorem performer_views_lead_with_best_and_worst
    (stock_input : string) (cd : Calendar.mdy) (ct : string) (button : bool)
    (df : DataFrame num) (link : string)
    (top_10 bottom_10 : DataFrame num) :
  (forall x y z : num,
      fge x y = true -> fge y z = true -> fge x z = true) ->
  In (TableView df link) (snd (page stock_input cd ct button)) ->
  In (TopPerformers top_10) (snd (page stock_input cd ct button)) ->
  In (BottomPerformers bottom_10) (snd (page stock_input cd ct button)) ->
  Forall (fun row => isnan (Return_pct row) = false) df ->
  descending top_10
  /\ ascending bottom_10
  /\ (forall best others,
        top_10 = best :: others ->
        exists rest,
          df = best :: rest
          /\ Forall (fun row => fge (Return_pct best) (Return_pct row) = true)
                    rest)
  /\ (forall worst others,
        bottom_10 = worst :: others ->
        exists front,
          df = front ++ [worst]
          /\ Forall (fun row =>
                       fge (Return_pct row) (Return_pct worst) = true)
                    front).
Proof.
  intros Htrans Htable Htop Hbottom Hnumbers.
  apply main_views in Htable. destruct Htable as [Hdf _].
  apply main_views in Htop. destruct Htop as (df1 & Hdf1 & ->).
  apply main_views in Hbottom. destruct Hbottom as (df2 & Hdf2 & ->).
  rewrite Hdf in Hdf1, Hdf2.
  injection Hdf1 as <-. injection Hdf2 as <-.
  pose proof (numbers_then_nans_descending df (calculate_order _ _ _ _ Hdf)
                Hnumbers) as Hsorted.
  assert (Hstrong : StronglySorted
            (fun a b => fge (Return_pct a) (Return_pct b) = true) df).
  { apply Sorted_StronglySorted; [| exact Hsorted].
    intros a b c Hab Hbc. exact (Htrans _ _ _ Hab Hbc). }
  unfold head, tail, reversed. split; [| split; [| split]].
  - now apply sorted_firstn.
  - unfold ascending. apply (sorted_rev _ _ (skipn _ df)).
    now apply sorted_skipn.
  - intros best others Heq.
    destruct df as [| row rest]; [discriminate |].
    simpl in Heq. injection Heq as -> _.
    exists rest. split; [reflexivity |]. now inversion Hstrong.
  - intros worst others Heq.
    apply (f_equal (@rev _)) in Heq. rewrite rev_involutive in Heq.
    simpl in Heq.
    pose proof (firstn_skipn (List.length df - 10) df) as Hsplit.
    rewrite Heq, app_assoc in Hsplit.
    exists (firstn (List.length df - 10) df ++ rev others).
    split; [now symmetry |].
    apply (strongly_sorted_last _
             (fun a b => fge (Return_pct a) (Return_pct b) = true)
             _ worst).
    now rewrite Hsplit.
Qed.

End PageFacts.

(** ** Symbols do not influence each other *)

Section Independence.

Context {num : Type} {F : Float64 num} {SV : SortValues num}.
Variable America_New_York : tzinfo.
Variable history : string -> Z -> Z -> result (Ticker num).

Local Abbreviation calculate :=
  (calculate_stock_returns America_New_York history).

(** X15.  The row of a symbol does not depend on the other entries of
    the input list: a row that one run returns is returned by every run,
    for the same date and time, whose list holds the symbol of the row. *)
Theorem row_independent_of_other_symbols
    (stock_list stock_list' : list string) (cd : Calendar.mdy) (ct : string)
    (df df' : DataFrame num) (row : ReturnRecord num) :
  fst (calculate stock_list cd ct) = inr df ->
  fst (calculate stock_list' cd ct) = inr df' ->
  In row df ->
  In (Symbol row) stock_list' ->
  In row df'.
Proof.
  intros Hrun Hrun' Hrow Hsym.
  destruct (calculate_inr America_New_York history stock_list cd ct df Hrun)
    as (d & Hdate & [[_ ->] | (Hweek & p & Hprev & Hperm & _)]);
    [contradiction |].
  destruct (calculate_inr America_New_York history stock_list' cd ct df'
              Hrun')
    as (d' & Hdate' & [[Hweek' _] | (_ & p' & Hprev' & Hperm' & _)]).
  - rewrite Hdate in Hdate'. injection Hdate' as <-. lia.
  - rewrite Hdate in Hdate'. injection Hdate' as <-.
    rewrite Hprev in Hprev'. injection Hprev' as <-.
    apply (Permutation_in _ Hperm) in Hrow.
    apply in_successes in Hrow. destruct Hrow as (symbol & _ & Hproc).
    rewrite (process_symbol_Symbol _ _ _ _ _ _ _ Hproc) in Hsym.
    apply (Permutation_in _ (Permutation_sym Hperm')).
    apply in_successes. eauto.
Qed.

End Independence.

(** ** Entering the symbol list again *)

Lemma upper_char_LF (c : ascii) : Text.upper_char c = Text.LF -> c = Text.LF.
Proof.
  destruct c as [[] [] [] [] [] [] [] []]; intros H;
    try reflexivity; vm_compute in H; discriminate H.
Qed.

Lemma no_LF_upper (s : string) : no_LF s -> no_LF (Text.upper s).
Proof.
  induction s as [| c s IH]; simpl; [auto |].
  intros [Hc Hs]. split; [| auto].
  intros H. apply Hc. now apply upper_char_LF.
Qed.

Lemma no_LF_lstrip (s : string) : no_LF s -> no_LF (Text.lstrip s).
Proof.
  induction s as [| c s IH]; simpl; [auto |].
  intros [Hc Hs]. destruct (Text.isspace c); simpl; auto.
Qed.

Lemma no_LF_rstrip (s : string) : no_LF s -> no_LF (Text.rstrip s).
Proof.
  induction s as [| c s IH]; simpl; [auto |].
  intros [Hc Hs]. specialize (IH Hs).
  destruct (Text.rstrip s); [destruct (Text.isspace c) |]; simpl; auto.
Qed.

Lemma split_lines_no_LF (s : string) : Forall no_LF (Text.split_lines s).
Proof.
  induction s as [| c s IH]; simpl.
  - repeat constructor.
  - destruct (Ascii.eqb_spec c Text.LF) as [-> | Hc].
    + constructor; [exact I | exact IH].
    + destruct (Text.split_lines s) as [| piece rest].
      * repeat constructor. exact Hc.
      * inversion IH; subst. constructor; [split |]; assumption.
Qed.

Lemma split_lines_one (x : string) : no_LF x -> Text.split_lines x = [x].
Proof.
  induction x as [| c x IH]; simpl; [reflexivity |].
  intros [Hc Hx]. rewrite (IH Hx).
  destruct (Ascii.eqb_spec c Text.LF); [contradiction | reflexivity].
Qed.

Lemma split_lines_append (x rest : string) :
  no_LF x ->
  Text.split_lines (String.append x (String Text.LF rest))
  = x :: Text.split_lines rest.
Proof.
  induction x as [| c x IH]; simpl.
  - intros _. reflexivity.
  - intros [Hc Hx]. rewrite (IH Hx).
    destruct (Ascii.eqb_spec c Text.LF); [contradiction | reflexivity].
Qed.

(** Cutting a text joined with line feeds gives the lines back. *)
Lemma split_lines_text_area (x : string) (l : list string) :
  Forall no_LF (x :: l) ->
  Text.split_lines (Sample.text_area (x :: l)) = x :: l.
Proof.
  revert x. induction l as [| y l IH]; intros x Hall.
  - inversion Hall; subst. now apply split_lines_one.
  - inversion Hall as [| ? ? Hx Hrest]; subst.
    unfold Sample.text_area in *.
    change (String.concat (String Text.LF EmptyString) (x :: y :: l))
      with (String.append x
              (String Text.LF
                 (String.concat (String Text.LF EmptyString) (y :: l)))).
    rewrite split_lines_append by assumption. f_equal. now apply IH.
Qed.

(** X16.  Entering the symbol list again changes nothing: the list made
    from the symbols of a text, written one per line, is the list made
    from the text. *)
Theorem symbol_list_entered_again (stock_input : string) :
  Text.stocks_list (Sample.text_area (Text.stocks_list stock_input))
  = Text.stocks_list stock_input.
Proof.
  assert (Hall : Forall (fun x => Text.truthy x = true
                                  /\ Text.strip x = x
                                  /\ Text.upper x = x
                                  /\ no_LF x)
                        (Text.stocks_list stock_input)).
  { rewrite stocks_list_map_filter. apply Forall_forall. intros x Hin.
    apply in_map_iff in Hin. destruct Hin as (line & <- & Hline).
    apply filter_In in Hline. destruct Hline as [Hin Hline].
    repeat split.
    - now rewrite TextFacts.truthy_upper.
    - now rewrite TextFacts.strip_upper, TextFacts.strip_idem.
    - apply TextFacts.upper_idem.
    - apply no_LF_upper, no_LF_rstrip, no_LF_lstrip.
      pose proof (split_lines_no_LF stock_input) as Hno.
      rewrite Forall_forall in Hno. now apply Hno. }
  remember (Text.stocks_list stock_input) as l eqn:El. clear El.
  rewrite stocks_list_map_filter,
          <- TextFacts.comprehension_map_filter.
  destruct l as [| x l]; [reflexivity |].
  rewrite split_lines_text_area
    by (eapply Forall_impl; [| exact Hall]; cbv beta; tauto).
  induction Hall as [| y m (Ht & Hs & Hu & _) _ IH]; [reflexivity |].
  cbn [Text.comprehension]. rewrite Hs, Ht, Hu. now rewrite IH.
Qed.

(** ** The further properties at work on the sample data *)

Lemma exact_fge_trans (x y z : Q) :
  fge (Float64 := Exact.exact) x y = true ->
  fge (Float64 := Exact.exact) y z = true ->
  fge (Float64 := Exact.exact) x z = true.
Proof.
  simpl. rewrite !Qle_bool_iff. intros Hxy Hyz.
  now apply (Qle_trans z y x).
Qed.

(** ["AAPL"] entered twice, around a symbol without bars. *)
Lemma requests_of_a_run :
  filter is_history
         (snd (calculate_stock_returns (SV := stable_exact) Sample.EST
                 Sample.history ["AAPL"; "MSFT"; "AAPL"]
                 Sample.wednesday "09:30"))
  = map (fun symbol => History symbol 739237 (739238 + 1))
        ["AAPL"; "MSFT"; "AAPL"].
Proof.
  apply (provider_asked_once_per_entry (SV := stable_exact) Sample.EST
           Sample.history ["AAPL"; "MSFT"; "AAPL"] Sample.wednesday "09:30"
           739238 739237).
  - reflexivity.
  - vm_compute. reflexivity.
  - reflexivity.
  - vm_compute. reflexivity.
Defined.

Lemma reports_of_a_run :
  filter is_report
         (snd (calculate_stock_returns (SV := stable_exact) Sample.EST
                 Sample.history ["AAPL"; "MSFT"; "AAPL"]
                 Sample.wednesday "09:30"))
  = flat_map (fun ks => [Progress (fst ks) 3; StatusText (snd ks) (fst ks) 3])
             (combine (seq 1 3) ["AAPL"; "MSFT"; "AAPL"]).
Proof.
  apply (progress_reported_per_entry (SV := stable_exact) Sample.EST
           Sample.history ["AAPL"; "MSFT"; "AAPL"] Sample.wednesday "09:30"
           739238 739237).
  - reflexivity.
  - vm_compute. reflexivity.
  - reflexivity.
Defined.

(** Two symbols that both fail. *)
Lemma run_without_success :
  (fst (calculate_stock_returns (SV := stable_exact) Sample.EST
          Sample.history ["MSFT"; "GOOG"] Sample.wednesday "09:30")
   = inr empty_frame
   <-> (forall symbol, In symbol ["MSFT"; "GOOG"] ->
          succeeds Sample.EST Sample.history symbol 739238 739237 "09:30"
          = false))
  /\ (In (Warning no_results_msg)
         (snd (calculate_stock_returns (SV := stable_exact) Sample.EST
                 Sample.history ["MSFT"; "GOOG"] Sample.wednesday "09:30"))
      <-> (forall symbol, In symbol ["MSFT"; "GOOG"] ->
             succeeds Sample.EST Sample.history symbol 739238 739237 "09:30"
             = false)).
Proof.
  apply (empty_table_iff_no_success (SV := stable_exact) Sample.EST
           Sample.history ["MSFT"; "GOOG"] Sample.wednesday "09:30"
           739238 739237).
  - reflexivity.
  - vm_compute. reflexivity.
  - reflexivity.
Defined.

Lemma aapl_has_a_row :
  In "AAPL" (map Symbol [Sample.row "AAPL" 10000 10500 500])
  <-> In "AAPL" ["MSFT"; "AAPL"]
      /\ exists ticker,
           Sample.history "AAPL" 739237 739239 = inr ticker
           /\ index_tz ticker <> None
           /\ (exists b, In b (bars ticker)
                         /\ index_date ticker b = 739238
                         /\ new_york_time Sample.EST b = "09:30")
           /\ (exists b, In b (bars ticker) /\ index_date ticker b = 739237).
Proof.
  apply (symbol_has_row_iff (SV := stable_exact) Sample.EST Sample.history
           ["MSFT"; "AAPL"] Sample.wednesday "09:30" 739238 739237 739239).
  - reflexivity.
  - vm_compute. reflexivity.
  - reflexivity.
  - reflexivity.
  - vm_compute. reflexivity.
Defined.

(** The time written without its leading zero. *)
Lemma run_with_short_time :
  String.length "9:30" <> 5%nat
  /\ ([] : DataFrame Q) = [].
Proof.
  split; [discriminate |].
  apply (malformed_time_gives_empty_table (SV := stable_exact) Sample.EST
           Sample.history ["AAPL"; "TSLA"] Sample.wednesday "9:30" []).
  - discriminate.
  - vm_compute. reflexivity.
Defined.

Lemma run_in_another_order :
  exists df',
    fst (calculate_stock_returns (SV := stable_exact) Sample.EST
           Sample.history ["AAPL"; "IBM"] Sample.wednesday "09:30")
    = inr df'
    /\ Permutation [Sample.row "AAPL" 10000 10500 500;
                    Sample.row "IBM" 20000 20200 100] df'.
Proof.
  apply (rows_independent_of_input_order (SV := stable_exact) Sample.EST
           Sample.history ["IBM"; "AAPL"] ["AAPL"; "IBM"]
           Sample.wednesday "09:30").
  - apply perm_swap.
  - vm_compute. reflexivity.
Defined.

Lemma rows_of_a_repeated_symbol :
  count_occ string_dec
            (map Symbol [Sample.row "AAPL" 10000 10500 500;
                         Sample.row "AAPL" 10000 10500 500])
            "AAPL"
  = if succeeds Sample.EST Sample.history "AAPL" 739238 739237 "09:30"
    then count_occ string_dec ["AAPL"; "MSFT"; "AAPL"] "AAPL"
    else 0%nat.
Proof.
  apply (rows_per_symbol (SV := stable_exact) Sample.EST Sample.history
           ["AAPL"; "MSFT"; "AAPL"] Sample.wednesday "09:30" 739238 739237).
  - reflexivity.
  - vm_compute. reflexivity.
  - reflexivity.
  - vm_compute. reflexivity.
Defined.

(** Monday 2024-12-16 and the Friday before it. *)
Lemma friday_before_a_monday :
  0 <= Calendar.weekday 739233 < 5
  /\ 739236 - 3 <= 739233 < 739236
  /\ Calendar.weekday 739233
     = (if Calendar.weekday 739236 =? 0 then 4
        else Calendar.weekday 739236 - 1).
Proof.
  apply (comparison_day_is_a_weekday 739236 739233).
  - vm_compute. reflexivity.
  - reflexivity.
Defined.

Lemma page_request :
  true = true
  /\ exists line,
       In line (Text.split_lines (Sample.text_area ["ibm"; " aapl"; " "]))
       /\ Text.strip line <> ""
       /\ "AAPL" = Text.upper (Text.strip line).
Proof.
  apply (provider_asked_for_entered_symbols_only (SV := stable_exact)
           Sample.EST Sample.history sample_to_csv
           (Sample.text_area ["ibm"; " aapl"; " "]) Sample.wednesday "09:30"
           true "AAPL" 739237 739239).
  vm_compute. repeat (first [left; reflexivity | right]).
Defined.

Lemma page_views :
  exists df,
    fst (calculate_stock_returns (SV := stable_exact) Sample.EST
           Sample.history
           (Text.stocks_list (Sample.text_area ["ibm"; " aapl"; " "; "tsla"]))
           Sample.wednesday "09:30")
    = inr df
    /\ List.length [Sample.row "AAPL" 10000 10500 500;
                    Sample.row "TSLA" 20000 21000 500;
                    Sample.row "IBM" 20000 20200 100]
       = Nat.min 10 (List.length df)
    /\ List.length [Sample.row "IBM" 20000 20200 100;
                    Sample.row "TSLA" 20000 21000 500;
                    Sample.row "AAPL" 10000 10500 500]
       = Nat.min 10 (List.length df)
    /\ (exists rest,
          df = [Sample.row "AAPL" 10000 10500 500;
                Sample.row "TSLA" 20000 21000 500;
                Sample.row "IBM" 20000 20200 100] ++ rest)
    /\ (exists front,
          df = front ++ rev [Sample.row "IBM" 20000 20200 100;
                             Sample.row "TSLA" 20000 21000 500;
                             Sample.row "AAPL" 10000 10500 500])
    /\ ((List.length df <= 10)%nat ->
        [Sample.row "AAPL" 10000 10500 500;
         Sample.row "TSLA" 20000 21000 500;
         Sample.row "IBM" 20000 20200 100] = df
        /\ [Sample.row "IBM" 20000 20200 100;
            Sample.row "TSLA" 20000 21000 500;
            Sample.row "AAPL" 10000 10500 500]
           = rev [Sample.row "AAPL" 10000 10500 500;
                  Sample.row "TSLA" 20000 21000 500;
                  Sample.row "IBM" 20000 20200 100]).
Proof.
  apply (performer_views_are_cut_from_the_table (SV := stable_exact)
           Sample.EST Sample.history sample_to_csv
           (Sample.text_area ["ibm"; " aapl"; " "; "tsla"])
           Sample.wednesday "09:30" true).
  - vm_compute. repeat (first [left; reflexivity | right]).
  - vm_compute. repeat (first [left; reflexivity | right]).
Defined.

Lemma page_best_and_worst :
  descending [Sample.row "AAPL" 10000 10500 500;
              Sample.row "TSLA" 20000 21000 500;
              Sample.row "IBM" 20000 20200 100]
  /\ ascending [Sample.row "IBM" 20000 20200 100;
                Sample.row "TSLA" 20000 21000 500;
                Sample.row "AAPL" 10000 10500 500]
  /\ (forall best others,
        [Sample.row "AAPL" 10000 10500 500;
         Sample.row "TSLA" 20000 21000 500;
         Sample.row "IBM" 20000 20200 100] = best :: others ->
        exists rest,
          [Sample.row "AAPL" 10000 10500 500;
           Sample.row "TSLA" 20000 21000 500;
           Sample.row "IBM" 20000 20200 100] = best :: rest
          /\ Forall (fun row => fge (Return_pct best) (Return_pct row) = true)
                    rest)
  /\ (forall worst others,
        [Sample.row "IBM" 20000 20200 100;
         Sample.row "TSLA" 20000 21000 500;
         Sample.row "AAPL" 10000 10500 500] = worst :: others ->
        exists front,
          [Sample.row "AAPL" 10000 10500 500;
           Sample.row "TSLA" 20000 21000 500;
           Sample.row "IBM" 20000 20200 100] = front ++ [worst]
          /\ Forall (fun row =>
                       fge (Return_pct row) (Return_pct worst) = true)
                    front).
Proof.
  apply (performer_views_lead_with_best_and_worst (SV := stable_exact)
           Sample.EST Sample.history sample_to_csv
           (Sample.text_area ["ibm"; " aapl"; " "; "tsla"])
           Sample.wednesday "09:30" true
           [Sample.row "AAPL" 10000 10500 500;
            Sample.row "TSLA" 20000 21000 500;
            Sample.row "IBM" 20000 20200 100]
           (get_table_download_link sample_to_csv
              [Sample.row "AAPL" 10000 10500 500;
               Sample.row "TSLA" 20000 21000 500;
               Sample.row "IBM" 20000 20200 100])).
  - exact exact_fge_trans.
  - vm_compute. repeat (first [left; reflexivity | right]).
  - vm_compute. repeat (first [left; reflexivity | right]).
  - vm_compute. repeat (first [left; reflexivity | right]).
  - repeat constructor.
Defined.

(** The row of ["AAPL"] in a run with other symbols. *)
Lemma aapl_row_among_others :
  In (Sample.row "AAPL" 10000 10500 500)
     [Sample.row "AAPL" 10000 10500 500; Sample.row "IBM" 20000 20200 100].
Proof.
  apply (row_independent_of_other_symbols (SV := stable_exact) Sample.EST
           Sample.history ["AAPL"; "MSFT"] ["IBM"; "GOOG"; "AAPL"]
           Sample.wednesday "09:30"
           [Sample.row "AAPL" 10000 10500 500]).
  - vm_compute. reflexivity.
  - vm_compute. reflexivity.
  - now left.
  - simpl. auto.
Defined.

(** The link of a table with one row, and the page of a blank text. *)
Lemma sample_link_and_blank_page :
  get_table_download_link sample_to_csv [Sample.row "AAPL" 10000 10500 500]
  = String.append link_prefix (String.append "U3ltYm9sCkFBUEw=" link_suffix)
  /\ Base64.b64decode "U3ltYm9sCkFBUEw="
     = Some (Sample.text_area ["Symbol"; "AAPL"])
  /\ main (SV := stable_exact) Sample.EST Sample.history sample_to_csv
          (Sample.text_area [" "; ""]) Sample.wednesday "09:30" true
     = (ret tt, [Loaded 0; EnterSymbols true])
  /\ Text.stocks_list
       (Sample.text_area (Text.stocks_list
                            (Sample.text_area ["ibm"; " aapl"; " "])))
     = ["IBM"; "AAPL"].
Proof. repeat split; vm_compute; reflexivity. Qed.
